(** * pdf_page_splitter: the page-spec parser and the page extractor of [app.py]

    The two helpers of [app.py], [parse_page_spec] and
    [extract_pages_from_pdf], embedded as Rocq functions, and the properties
    the specification states about them.

    Conventions of the embedding.
    - A Python [str] is a [string]; a character is a code point below 256.
    - A Python [int] is a [Z].
    - A raised exception is the [Raise] case of [result]; an exception is its
      class and the text [str(e)] gives.
    - [pypdf] is not part of the repository: its reader and its serialiser are
      the fields of the class [PdfLibrary]; the writer and [io.BytesIO] are
      objects of an explicit heap. *)

From Stdlib Require Import ZArith Ascii String List Lia Bool.
From Stdlib Require Import Strings.Byte DecimalString DecimalPos.
From stdpp Require Import base gmap strings list.

Local Open Scope Z_scope.

(** ** Exceptions and results *)

Inductive exc_class : Type :=
| ValueError
| RuntimeError
| IndexError
| TypeError
| LibraryError (name : string).

Record exception : Type := Exc { exc_type : exc_class; exc_str : string }.

Inductive result (A : Type) : Type :=
| Ok (a : A)
| Raise (e : exception).
Arguments Ok {A} a.
Arguments Raise {A} e.

Definition rbind {A B : Type} (r : result A) (k : A -> result B) : result B :=
  match r with
  | Ok a => k a
  | Raise e => Raise e
  end.

Declare Scope result_scope.
Delimit Scope result_scope with result.
Notation "'let?' x ':=' r 'in' k" :=
  (rbind r (fun x => k))
  (at level 10, x pattern, r at level 100, k at level 200) : result_scope.
Local Open Scope result_scope.

(** ** Python's built-ins used by the parser *)

Module Py.

(** [str.isspace] on the code points below 256; [str.strip] removes these. *)
Definition isspace (c : ascii) : bool :=
  let n := N_of_ascii c in
  (((9 <=? n) && (n <=? 13)) || ((28 <=? n) && (n <=? 32)) || (n =? 133) || (n =? 160))%N.

Fixpoint lstrip (s : string) : string :=
  match s with
  | String c s' => if isspace c then lstrip s' else s
  | EmptyString => EmptyString
  end.

Fixpoint rstrip (s : string) : string :=
  match s with
  | EmptyString => EmptyString
  | String c s' =>
      match rstrip s' with
      | EmptyString => if isspace c then EmptyString else String c EmptyString
      | r => String c r
      end
  end.

(** [s.strip()] *)
Definition strip (s : string) : string := rstrip (lstrip s).

(** Truth value of a string: [not s] holds of the empty string only. *)
Definition is_empty (s : string) : bool :=
  match s with
  | EmptyString => true
  | String _ _ => false
  end.

(** [s.split(sep)] for a one-character separator: always at least one piece. *)
Fixpoint split (sep : ascii) (s : string) : list string :=
  match s with
  | EmptyString => [EmptyString]
  | String c s' =>
      if Ascii.eqb c sep then EmptyString :: split sep s'
      else match split sep s' with
           | piece :: pieces => String c piece :: pieces
           | [] => [String c EmptyString]
           end
  end.

(** [sep in s] for a one-character [sep]. *)
Fixpoint contains (sep : ascii) (s : string) : bool :=
  match s with
  | EmptyString => false
  | String c s' => Ascii.eqb c sep || contains sep s'
  end.

(** [s.split(sep, 1)]: cut at the first separator, if there is one. *)
Fixpoint split1 (sep : ascii) (s : string) : list string :=
  match s with
  | EmptyString => [EmptyString]
  | String c s' =>
      if Ascii.eqb c sep then [EmptyString; s']
      else match split1 sep s' with
           | piece :: pieces => String c piece :: pieces
           | [] => [String c EmptyString]
           end
  end.

(** [a, b = l]: unpacking into two names needs exactly two values. *)
Definition unpack2 (l : list string) : result (string * string) :=
  match l with
  | [a; b] => Ok (a, b)
  | [] | [_] => Raise (Exc ValueError "not enough values to unpack (expected 2)")
  | _ => Raise (Exc ValueError "too many values to unpack (expected 2)")
  end.

(** *** [int(s)] in base 10

    CPython skips white space on both sides, reads one optional sign, then
    decimal digits in which single underscores may separate digits.  Of
    the code points below 256 the white space [int] skips is 9..13 and 32,
    and 133 and 160 (which it first rewrites to a space); 28..31 are
    white space for [strip] but not for [int]. *)

Definition int_isspace (c : ascii) : bool :=
  let n := N_of_ascii c in
  (((9 <=? n) && (n <=? 13)) || (n =? 32) || (n =? 133) || (n =? 160))%N.

Definition digit_value (c : ascii) : option Z :=
  let n := N_of_ascii c in
  if ((48 <=? n) && (n <=? 57))%N then Some (Z.of_N (n - 48)) else None.

Fixpoint skip_space (s : string) : string :=
  match s with
  | String c s' => if int_isspace c then skip_space s' else s
  | EmptyString => EmptyString
  end.

Fixpoint all_space (s : string) : bool :=
  match s with
  | String c s' => int_isspace c && all_space s'
  | EmptyString => true
  end.

(** The digit scan: [prev_us] tells that the previous character was an
    underscore; the scan stops at the first character that is neither a
    digit nor an underscore and fails on a doubled or trailing underscore. *)
Fixpoint scan_digits (acc : Z) (prev_us : bool) (s : string) : option (Z * string) :=
  match s with
  | String c s' =>
      match digit_value c with
      | Some d => scan_digits (10 * acc + d) false s'
      | None =>
          if Ascii.eqb c "_" then
            (if prev_us then None else scan_digits acc true s')
          else if prev_us then None else Some (acc, s)
      end
  | EmptyString => if prev_us then None else Some (acc, EmptyString)
  end.

Definition unsigned_int (s : string) : option Z :=
  match s with
  | String c _ =>
      match digit_value c with
      | Some _ =>
          match scan_digits 0 false s with
          | Some (v, rest) => if all_space rest then Some v else None
          | None => None
          end
      | None => None
      end
  | EmptyString => None
  end.

Definition parse_int (s : string) : option Z :=
  match skip_space s with
  | String "-" s' => option_map Z.opp (unsigned_int s')
  | String "+" s' => unsigned_int s'
  | s' => unsigned_int s'
  end.

(** [int(s)]: the value, or [ValueError].  The message shows the literal
    between quotes where CPython shows its [repr]; CPython's bound on the
    number of digits of a literal is an interpreter setting and is left out.
    The theorems below do not depend on either. *)
Definition int (s : string) : result Z :=
  match parse_int s with
  | Some n => Ok n
  | None => Raise (Exc ValueError ("invalid literal for int() with base 10: '" +:+ s +:+ "'"))
  end.

(** [str(n)] of an integer. *)
Definition str (n : Z) : string := NilZero.string_of_int (Z.to_int n).

(** *** [range(start, stop, step)]

    A range object is its start, its step and its length; [list] reads the
    elements [start + i * step] for [i] below the length.  A zero step is
    rejected. *)

Definition range_length (start stop step : Z) : Z :=
  if 0 <? step then
    (if start <? stop then (stop - start - 1) / step + 1 else 0)
  else
    (if stop <? start then (start - stop - 1) / (- step) + 1 else 0).

Definition range (start stop step : Z) : result (list Z) :=
  if step =? 0 then Raise (Exc ValueError "range() arg 3 must not be zero")
  else Ok (map (fun i : nat => start + Z.of_nat i * step)
             (seq 0 (Z.to_nat (range_length start stop step)))).

(** [l[i]] on a list: a negative index counts from the end. *)
Definition getitem {A : Type} (l : list A) (i : Z) : result A :=
  let n := Z.of_nat (length l) in
  let j := if i <? 0 then i + n else i in
  if (j <? 0) || (n <=? j) then Raise (Exc IndexError "sequence index out of range")
  else match nth_error l (Z.to_nat j) with
       | Some x => Ok x
       | None => Raise (Exc IndexError "sequence index out of range")
       end.

End Py.

(** ** [parse_page_spec] *)

(** The [if "-" in part: ... else: ...] block of the loop body, run on a
    stripped, non-empty [part]; [pages] is the list built so far. *)
Definition parse_token (pages : list Z) (part : string) : result (list Z) :=
  if Py.contains "-" part then
    let? (start_s, end_s) := Py.unpack2 (Py.split1 "-" part) in
    let? start := Py.int start_s in
    let? end_ := Py.int end_s in
    let step := if start <=? end_ then 1 else -1 in
    let? r := Py.range start (end_ + step) step in
    Ok (pages ++ r)
  else
    let? n := Py.int part in
    Ok (pages ++ [n]).

(** One turn of the loop [for part in spec.split(",")]: strip, [continue] on
    an empty part, else the block above. *)
Definition parse_part (pages : list Z) (part : string) : result (list Z) :=
  let part := Py.strip part in
  if Py.is_empty part then Ok pages
  else parse_token pages part.

Fixpoint parse_parts (parts : list string) (pages : list Z) : result (list Z) :=
  match parts with
  | [] => Ok pages
  | part :: parts' =>
      let? pages' := parse_part pages part in
      parse_parts parts' pages'
  end.

Definition parse_page_spec (spec : string) : result (list Z) :=
  if Py.is_empty spec then Ok []
  else parse_parts (Py.split "," spec) [].

(** *** The specification's words, for comparison with the code *)

(** [n] values from [from], each [step] after the one before. *)
Fixpoint steps (from step : Z) (n : nat) : list Z :=
  match n with
  | O => []
  | S n' => from :: steps (from + step) step n'
  end.

(** The inclusive integer sequence from [start] to [end_]: upwards when
    [start <= end_], downwards otherwise. *)
Definition inclusive_seq (start end_ : Z) : list Z :=
  if start <=? end_ then steps start 1 (Z.to_nat (end_ - start + 1))
  else steps start (-1) (Z.to_nat (start - end_ + 1)).

(** A token the parser must reject: a single token that is no integer, or a
    range [a-b], cut at its first [-], one side of which is no integer (an
    empty side included, as in [-] and [3-]). *)
Inductive malformed : string -> Prop :=
| malformed_single (tok : string) :
    tok <> EmptyString -> Py.contains "-" tok = false ->
    Py.parse_int tok = None -> malformed tok
| malformed_start (a b : string) :
    Py.contains "-" a = false -> Py.parse_int a = None ->
    malformed (a +:+ String "-" b)
| malformed_end (a b : string) :
    Py.contains "-" a = false -> Py.parse_int b = None ->
    malformed (a +:+ String "-" b).

(** The spec a user types for a list of page numbers: their decimal
    numerals, separated by commas. *)
Definition typed (pages : list Z) : string :=
  String.concat "," (map Py.str pages).

(** Strings of decimal digits, and the value of a numeral read from the
    left with [acc] before it. *)
Fixpoint all_digits (s : string) : bool :=
  match s with
  | EmptyString => true
  | String c s' =>
      match Py.digit_value c with
      | Some _ => all_digits s'
      | None => false
      end
  end.

Fixpoint uint_value (acc : Z) (d : Decimal.uint) : Z :=
  match d with
  | Decimal.Nil => acc
  | Decimal.D0 d' => uint_value (10 * acc + 0) d'
  | Decimal.D1 d' => uint_value (10 * acc + 1) d'
  | Decimal.D2 d' => uint_value (10 * acc + 2) d'
  | Decimal.D3 d' => uint_value (10 * acc + 3) d'
  | Decimal.D4 d' => uint_value (10 * acc + 4) d'
  | Decimal.D5 d' => uint_value (10 * acc + 5) d'
  | Decimal.D6 d' => uint_value (10 * acc + 6) d'
  | Decimal.D7 d' => uint_value (10 * acc + 7) d'
  | Decimal.D8 d' => uint_value (10 * acc + 8) d'
  | Decimal.D9 d' => uint_value (10 * acc + 9) d'
  end.

(** The specification's [ParseError]: the [ValueError] that [int] raises
    inside the parser. *)
Definition is_parse_error {A : Type} (r : result A) : bool :=
  match r with
  | Raise (Exc ValueError _) => true
  | _ => false
  end.

(** The non-empty stripped tokens of a spec, in order. *)
Definition tokens (spec : string) : list string :=
  List.filter (fun t => negb (Py.is_empty t)) (map Py.strip (Py.split "," spec)).

Fixpoint parse_tokens (toks : list string) (pages : list Z) : result (list Z) :=
  match toks with
  | [] => Ok pages
  | tok :: toks' =>
      let? pages' := parse_token pages tok in
      parse_tokens toks' pages'
  end.

(** ** The pypdf interface

    What [app.py] uses of [pypdf].  A reader is a value: [decrypt] gives the
    reader as it is afterwards.  [PdfReader] stands for
    [PdfReader(io.BytesIO(b))], which reads the whole of [b].  The writer is a
    document under construction, held in the heap below; [serialize] is what
    [PdfWriter.write] puts into its stream, a function of the document and of
    whatever else the library reads (the time of day, a random file
    identifier), here a number. *)

Inductive password_type : Type := NOT_DECRYPTED | USER_PASSWORD | OWNER_PASSWORD.

Record writer_state (page : Type) : Type := WriterState {
  w_pages : list page;
  w_info : gmap string string
}.
Arguments WriterState {page} _ _.
Arguments w_pages {page} _.
Arguments w_info {page} _.

Class PdfLibrary : Type := {
  page : Type;
  reader : Type;
  PdfReader : list byte -> result reader;
  is_encrypted : reader -> bool;
  (** [reader.decrypt(password)]: the kind of password that matched, or an
      exception. *)
  decrypt : reader -> string -> result (password_type * reader);
  (** [reader.pages], as a list. *)
  reader_pages : reader -> result (list page);
  (** The information dictionary of a new [PdfWriter()]. *)
  new_info : gmap string string;
  serialize : writer_state page -> nat -> list byte
}.

(** ** The heap and the monad of [extract_pages_from_pdf] *)

Section Extractor.

Context {L : PdfLibrary}.

Inductive object : Type :=
| Writer (w : writer_state page)
| BytesIO (content : list byte) (pos : nat).

Record world : Type := World {
  heap : gmap nat object;
  ambient : nat
}.

Definition set_heap (w : world) (h : gmap nat object) : world :=
  World h (ambient w).

Definition M (A : Type) : Type := world -> result A * world.

Definition ret {A : Type} (a : A) : M A := fun w => (Ok a, w).

Definition raise {A : Type} (e : exception) : M A := fun w => (Raise e, w).

Definition bind {A B : Type} (m : M A) (k : A -> M B) : M B :=
  fun w =>
    match m w with
    | (Ok a, w') => k a w'
    | (Raise e, w') => (Raise e, w')
    end.

Definition lift {A : Type} (r : result A) : M A := fun w => (r, w).

Notation "'let!' x ':=' m 'in' k" :=
  (bind m (fun x => k))
  (at level 10, x pattern, m at level 100, k at level 200).

(** A new object gets an address not in use. *)
Definition alloc (o : object) : M nat :=
  fun w =>
    let l := fresh (dom (heap w)) in
    (Ok l, set_heap w (<[l := o]> (heap w))).

Definition not_a (what : string) : exception :=
  Exc TypeError ("object is not a " +:+ what).

(** [PdfWriter()] *)
Definition PdfWriter : M nat := alloc (Writer (WriterState [] new_info)).

(** [writer.add_page(pg)]: the page goes to the end of the document. *)
Definition add_page (writer : nat) (pg : page) : M unit :=
  fun w =>
    match heap w !! writer with
    | Some (Writer d) =>
        (Ok tt, set_heap w (<[writer := Writer (WriterState (w_pages d ++ [pg]) (w_info d))]> (heap w)))
    | _ => (Raise (not_a "PdfWriter"), w)
    end.

(** [writer.add_metadata(infos)]: a dictionary update, new entries win. *)
Definition add_metadata (writer : nat) (infos : gmap string string) : M unit :=
  fun w =>
    match heap w !! writer with
    | Some (Writer d) =>
        (Ok tt, set_heap w (<[writer := Writer (WriterState (w_pages d) (infos ∪ w_info d))]> (heap w)))
    | _ => (Raise (not_a "PdfWriter"), w)
    end.

(** [io.BytesIO()] *)
Definition BytesIO_new : M nat := alloc (BytesIO [] 0).

(** [stream.write(b)] at position [pos] of [content]. *)
Definition stream_write (content : list byte) (pos : nat) (b : list byte) : list byte :=
  take pos (content ++ replicate (pos - length content) Byte.x00)
    ++ b ++ drop (pos + length b) content.

(** [writer.write(stream)] *)
Definition writer_write (writer stream : nat) : M unit :=
  fun w =>
    match heap w !! writer with
    | Some (Writer d) =>
        match heap w !! stream with
        | Some (BytesIO content pos) =>
            let b := serialize d (ambient w) in
            (Ok tt, set_heap w (<[stream := BytesIO (stream_write content pos b)
                                                     (pos + length b)]> (heap w)))
        | _ => (Raise (not_a "stream"), w)
        end
    | _ => (Raise (not_a "PdfWriter"), w)
    end.

(** [stream.seek(n)] *)
Definition seek (stream : nat) (n : nat) : M unit :=
  fun w =>
    match heap w !! stream with
    | Some (BytesIO content _) =>
        (Ok tt, set_heap w (<[stream := BytesIO content n]> (heap w)))
    | _ => (Raise (not_a "stream"), w)
    end.

(** [stream.read()]: everything from the position on. *)
Definition read (stream : nat) : M (list byte) :=
  fun w =>
    match heap w !! stream with
    | Some (BytesIO content pos) =>
        (Ok (drop pos content),
         set_heap w (<[stream := BytesIO content (Nat.max pos (length content))]> (heap w)))
    | _ => (Raise (not_a "stream"), w)
    end.

(** ** [extract_pages_from_pdf] *)

Definition out_of_range (p total_pages : Z) : exception :=
  Exc ValueError
    ("Page " +:+ Py.str p +:+ " is out of range (1.." +:+ Py.str total_pages +:+ ").").

(** The loop that validates the page numbers. *)
Fixpoint check_pages (pages_1based : list Z) (total_pages : Z) : result unit :=
  match pages_1based with
  | [] => Ok tt
  | p :: rest =>
      if (p <? 1) || (total_pages <? p) then Raise (out_of_range p total_pages)
      else check_pages rest total_pages
  end.

(** The loop that copies the pages. *)
Fixpoint copy_pages (writer : nat) (rd : reader) (pages_1based : list Z) : M unit :=
  match pages_1based with
  | [] => ret tt
  | p :: rest =>
      let! pages := lift (reader_pages rd) in
      let! pg := lift (Py.getitem pages (p - 1)) in
      let! _ := add_page writer pg in
      copy_pages writer rd rest
  end.

Definition extracted_metadata : gmap string string :=
  <["/Title"%string := "Extracted Pages"%string]>
    (<["/Producer"%string := "pypdf"%string]> ∅).

Definition extract_pages_from_pdf (pdf_bytes : list byte) (pages_1based : list Z)
  : M (list byte) :=
  let! rd := lift (PdfReader pdf_bytes) in
  let! rd :=
    (if is_encrypted rd then
       match decrypt rd "" with
       | Ok (_, rd') => ret rd'
       | Raise e =>
           raise (Exc RuntimeError
                    ("PDF is encrypted and cannot be opened without a password: "
                       +:+ exc_str e))
       end
     else ret rd) in
  let! pages := lift (reader_pages rd) in
  let total_pages := Z.of_nat (length pages) in
  let! _ := lift (check_pages pages_1based total_pages) in
  let! writer := PdfWriter in
  let! _ := copy_pages writer rd pages_1based in
  let! _ := add_metadata writer extracted_metadata in
  let! out_buf := BytesIO_new in
  let! _ := writer_write writer out_buf in
  let! _ := seek out_buf 0 in
  read out_buf.

(** *** The specification's words, for comparison with the code *)

(** The pages of [pages] at the 1-based positions [pages_1based], in the
    order of the positions; a position outside the document selects nothing. *)
Definition select_pages {A : Type} (pages : list A) (pages_1based : list Z) : list A :=
omap (fun p => if 1 <=? p then nth_error pages (Z.to_nat (p - 1)) else None) pages_1based.

(** The information dictionary of the output: the two entries [app.py]
    sets, over those of a new writer. *)
Definition output_info : gmap string string := extracted_metadata ∪ new_info.

(** Steps 1 to 4 of the specification's algorithm: open the source, unlock
    it with the empty password if it is encrypted, validate every page
    number, then select the pages and attach the metadata. *)
Definition output_document (pdf_bytes : list byte) (pages_1based : list Z)
  : result (writer_state page) :=
let? rd := PdfReader pdf_bytes in
let? rd :=
  (if is_encrypted rd then
     match decrypt rd "" with
     | Ok (_, rd') => Ok rd'
     | Raise e =>
         Raise (Exc RuntimeError
                  ("PDF is encrypted and cannot be opened without a password: "
                     +:+ exc_str e))
     end
   else Ok rd) in
let? pages := reader_pages rd in
let? _ := check_pages pages_1based (Z.of_nat (length pages)) in
Ok (WriterState (select_pages pages pages_1based) output_info).

(** A valid source: the bytes parse, an encrypted document unlocks with the
    empty password, and the pages [pages] can be read. *)
Definition readable (pdf_bytes : list byte) (pages : list page) : Prop :=
exists rd, PdfReader pdf_bytes = Ok rd /\
  ((is_encrypted rd = false /\ reader_pages rd = Ok pages) \/
   (is_encrypted rd = true /\
    exists pt rd', decrypt rd "" = Ok (pt, rd') /\ reader_pages rd' = Ok pages)).

(** A page number outside [1, total_pages]. *)
Definition bad_page (total_pages p : Z) : bool := (p <? 1) || (total_pages <? p).

End Extractor.

(** ** A small library for the examples

    A document is a tag and one byte per page.  Tag [P]: not encrypted.  Tag
    [E]: encrypted, the empty password opens it.  Tag [W]: encrypted with a
    password; [decrypt] reports [NOT_DECRYPTED] and the pages stay closed.
    Tag [X]: encrypted by a method the library cannot handle; [decrypt]
    raises.  Anything else is no document. *)

Inductive toy_tag : Type := TagP | TagE | TagW | TagX.

Record toy_reader : Type := ToyReader {
  toy_kind : toy_tag;
  toy_open : bool;
  toy_pages : list byte
}.

Definition toy_PdfReader (b : list byte) : result toy_reader :=
match b with
| "P"%byte :: ps => Ok (ToyReader TagP true ps)
| "E"%byte :: ps => Ok (ToyReader TagE false ps)
| "W"%byte :: ps => Ok (ToyReader TagW false ps)
| "X"%byte :: ps => Ok (ToyReader TagX false ps)
| _ => Raise (Exc (LibraryError "PdfReadError") "EOF marker not found")
end.

Definition toy_is_encrypted (r : toy_reader) : bool :=
match toy_kind r with
| TagP => false
| _ => true
end.

Definition toy_decrypt (r : toy_reader) (password : string) : result (password_type * toy_reader) :=
match toy_kind r with
| TagP => Raise (Exc (LibraryError "PdfReadError") "Not encrypted file")
| TagE =>
    if Py.is_empty password then Ok (USER_PASSWORD, ToyReader TagE true (toy_pages r))
    else Ok (NOT_DECRYPTED, r)
| TagW => Ok (NOT_DECRYPTED, r)
| TagX => Raise (Exc (LibraryError "NotImplementedError") "unsupported encryption")
end.

Definition toy_reader_pages (r : toy_reader) : result (list byte) :=
if toy_open r then Ok (toy_pages r)
else Raise (Exc (LibraryError "FileNotDecryptedError") "File has not been decrypted").

Definition toy : PdfLibrary := {|
  page := byte;
  reader := toy_reader;
  PdfReader := toy_PdfReader;
  is_encrypted := toy_is_encrypted;
  decrypt := toy_decrypt;
  reader_pages := toy_reader_pages;
  new_info := <["/Producer"%string := "pypdf"%string]> ∅;
  serialize := fun d _ => w_pages d
|}.

Definition empty_world (L : PdfLibrary) : world := World ∅ 0.


(** ** The page of [app.py]

    One run of the script below the helpers.  What the user has entered is a
    record: the uploaded file, the selection mode, the text of the spec, the
    two numbers of the range and whether the button is pressed.  What the
    script shows besides its input widgets is a list of elements, in the
    order of the calls; [st.set_page_config] shows nothing.  The texts are
    held as the bytes the source file has for them.  [Raise] is an exception
    no [try] of the script catches; [st.stop()] ends the run. *)

Inductive element : Type :=
| st_title (body : string)
| st_caption (body : string)
| st_info (body : string)
| st_error (body : string)
| st_warning (body : string)
| st_success (body : string)
| st_write (label : string) (pages : list Z)
| st_download_button (label : string) (data : list byte) (file_name mime : string).

Inductive selection_mode : Type := BySpec | ByRange.

Record widgets : Type := Widgets {
  uploaded : option (list byte);
  mode : selection_mode;
  spec_input : string;
  start_input : Z;
  end_input : Z;
  button : bool
}.

(** [str(l)] of a list of integers, as an f-string shows it. *)
Definition list_str (l : list Z) : string :=
  "[" +:+ String.concat ", " (map Py.str l) +:+ "]".

(** [len(l)] as an integer. *)
Definition len {A : Type} (l : list A) : Z := Z.of_nat (length l).

(** The list of the range mode: [start] up or down to [end]. *)
Definition range_selection (start end_ : Z) : result (list Z) :=
  if start <=? end_ then Py.range start (end_ + 1) 1
  else Py.range start (end_ - 1) (-1).

(** [bad = [p for p in selected_pages if p < 1 or p > total_pages]] *)
Definition bad_pages (total_pages : Z) (selected_pages : list Z) : list Z :=
  List.filter (fun p => (p <? 1) || (total_pages <? p)) selected_pages.

Section App.

Context {L : PdfLibrary}.

(** The [try] that peeks at the page count. *)
Definition peek_total_pages (pdf_bytes : list byte) : result Z :=
  let? rd := PdfReader pdf_bytes in
  let? pages := reader_pages rd in
  Ok (len pages).

(** The two branches on [mode]: what they show and [selected_pages]. *)
Definition choose_pages (i : widgets) : result (list element * list Z) :=
  match mode i with
  | BySpec =>
      if Py.is_empty (spec_input i) then Ok ([], [])
      else match parse_page_spec (spec_input i) with
           | Ok selected_pages => Ok ([], selected_pages)
           | Raise e => Ok ([st_error ("Invalid spec: " +:+ exc_str e)], [])
           end
  | ByRange =>
      let? selected_pages := range_selection (start_input i) (end_input i) in
      Ok ([], selected_pages)
  end.

(** The [try] under the button. *)
Definition build_block (pdf_bytes : list byte) (selected_pages : list Z)
  : M (list element) :=
  fun w =>
    match extract_pages_from_pdf pdf_bytes selected_pages w with
    | (Ok out_bytes, w') =>
        (Ok [st_success ("Built PDF with " +:+ Py.str (len selected_pages) +:+ " page(s).");
             st_download_button "⬇️ Download result" out_bytes
               "extracted_pages.pdf" "application/pdf"], w')
    | (Raise e, w') => (Ok [st_error ("Failed to build PDF: " +:+ exc_str e)], w')
    end.

(** The block [if selected_pages: ... else: ...]. *)
Definition pages_block (pdf_bytes : list byte) (total_pages : Z)
    (selected_pages : list Z) (clicked : bool) : M (list element) :=
  match selected_pages with
  | [] => ret [st_warning "Pick some pages first."]
  | _ :: _ =>
      bind (match bad_pages total_pages selected_pages with
            | _ :: _ =>
                ret [st_error ("Out-of-range pages: "
                                 +:+ list_str (bad_pages total_pages selected_pages)
                                 +:+ " (valid range is 1.." +:+ Py.str total_pages +:+ ")")]
            | [] => if clicked then build_block pdf_bytes selected_pages else ret []
            end)
        (fun shown => ret (st_write "Selected pages (in order):" selected_pages :: shown))
  end.

Definition page_head : list element :=
  [st_title "📄 PDF Page Picker";
   st_caption "Upload a PDF, choose pages (by spec or range), and download a new PDF."].

Definition app (i : widgets) : M (list element) :=
  match uploaded i with
  | None => ret (page_head ++ [st_info "Please upload a PDF to get started."])
  | Some pdf_bytes =>
      match peek_total_pages pdf_bytes with
      | Raise e => ret (page_head ++ [st_error ("Failed to read PDF: " +:+ exc_str e)])
      | Ok total_pages =>
          bind (lift (choose_pages i)) (fun '(shown, selected_pages) =>
            bind (pages_block pdf_bytes total_pages selected_pages (button i))
              (fun shown' =>
                 ret (page_head
                        ++ [st_info ("Total pages detected: **" +:+ Py.str total_pages +:+ "**")]
                        ++ shown ++ shown')))
      end
  end.

(** The document the call built: the writer at the first free address of
    the heap the call started from, if there is one afterwards. *)
Definition built_document (pdf_bytes : list byte) (pages_1based : list Z) (w : world)
  : option (writer_state page) :=
  match heap (snd (extract_pages_from_pdf pdf_bytes pages_1based w))
          !! fresh (dom (heap w)) with
  | Some (Writer d) => Some d
  | _ => None
  end.

(** The reader the call works with once the source is open: the one
    [PdfReader] gave for these bytes, after [decrypt] with the empty password
    if it is encrypted. *)
Definition opened (pdf_bytes : list byte) (rd : reader) : Prop :=
  exists rd0,
    PdfReader pdf_bytes = Ok rd0
    /\ ((is_encrypted rd0 = false /\ rd = rd0)
        \/ (is_encrypted rd0 = true /\ exists pt, decrypt rd0 "" = Ok (pt, rd))).

End App.

(** Strings of white space, as [str.strip] sees it. *)
Fixpoint all_isspace (s : string) : bool :=
  match s with
  | EmptyString => true
  | String c s' => Py.isspace c && all_isspace s'
  end.

(** ** Lemmas on the string built-ins *)

Section StringLemmas.

Variable sep : ascii.

Lemma split_not_nil (s : string) : Py.split sep s <> [].
Proof.
  destruct s as [|c s]; simpl; [discriminate|].
  destruct (Ascii.eqb c sep); [discriminate|].
  destruct (Py.split sep s); discriminate.
Qed.

Lemma split_app (a b : string) :
  Py.split sep (a +:+ String sep b) = Py.split sep a ++ Py.split sep b.
Proof.
  induction a as [|c a IH]; simpl.
  - now rewrite Ascii.eqb_refl.
  - destruct (Ascii.eqb c sep); [now rewrite IH|].
    rewrite IH. pose proof (split_not_nil a) as Hne.
    destruct (Py.split sep a); [congruence|reflexivity].
Qed.

Lemma contains_app (a b : string) :
  Py.contains sep (a +:+ String sep b) = true.
Proof.
  induction a as [|c a IH]; simpl.
  - now rewrite Ascii.eqb_refl.
  - rewrite IH. apply orb_true_r.
Qed.

Lemma split1_app (a b : string) :
  Py.contains sep a = false ->
  Py.split1 sep (a +:+ String sep b) = [a; b].
Proof.
  induction a as [|c a IH]; simpl; intros Hc.
  - now rewrite Ascii.eqb_refl.
  - apply orb_false_elim in Hc as [Hc1 Hc2].
    rewrite Hc1, (IH Hc2). reflexivity.
Qed.


End StringLemmas.

Lemma app_not_empty (a b : string) (c : ascii) : a +:+ String c b <> EmptyString.
Proof. destruct a; discriminate. Qed.

(** ** Lemmas on [range] *)

Lemma map_seq_steps (from step : Z) (n k : nat) :
  map (fun i : nat => from + Z.of_nat i * step) (seq k n)
  = steps (from + Z.of_nat k * step) step n.
Proof.
  revert k. induction n as [|n IH]; intros k; simpl; [reflexivity|].
  rewrite IH. do 2 f_equal. lia.
Qed.

Lemma range_inclusive (start end_ : Z) :
  let step := if start <=? end_ then 1 else -1 in
  Py.range start (end_ + step) step = Ok (inclusive_seq start end_).
Proof.
  unfold Py.range, Py.range_length, inclusive_seq.
  destruct (Z.leb_spec start end_) as [Hle|Hgt]; simpl.
  - destruct (Z.ltb_spec start (end_ + 1)); [|lia].
    rewrite map_seq_steps, Z.div_1_r. do 2 f_equal; lia.
  - destruct (Z.ltb_spec (end_ + -1) start); [|lia].
    rewrite map_seq_steps. change (- -1) with 1. rewrite Z.div_1_r.
    do 2 f_equal; lia.
Qed.

Lemma steps_length (from step : Z) (n : nat) : length (steps from step n) = n.
Proof. revert from. induction n; intros; simpl; auto. Qed.

Lemma steps_nth (from step : Z) (n i : nat) :
  (i < n)%nat -> nth_error (steps from step n) i = Some (from + Z.of_nat i * step).
Proof.
  revert from i. induction n as [|n IH]; intros from i Hi; [lia|].
  destruct i as [|i]; simpl.
  - f_equal. lia.
  - rewrite IH by lia. f_equal. lia.
Qed.

(** The sequence has [|end_ - start| + 1] elements. *)
Lemma inclusive_seq_length (start end_ : Z) :
  Z.of_nat (length (inclusive_seq start end_)) = Z.abs (end_ - start) + 1.
Proof.
  unfold inclusive_seq.
  destruct (Z.leb_spec start end_); rewrite steps_length; lia.
Qed.

(** Its [i]-th element is [i] steps from [start] towards [end_]; so it
    begins at [start] and its last element is [end_]. *)
Lemma inclusive_seq_nth (start end_ : Z) (i : nat) :
  Z.of_nat i <= Z.abs (end_ - start) ->
  nth_error (inclusive_seq start end_) i
  = Some (if start <=? end_ then start + Z.of_nat i else start - Z.of_nat i).
Proof.
  intros Hi. unfold inclusive_seq.
  destruct (Z.leb_spec start end_); rewrite steps_nth by lia; f_equal; lia.
Qed.

(** ** Lemmas on the parser *)

Lemma int_ok (s : string) (n : Z) : Py.parse_int s = Some n -> Py.int s = Ok n.
Proof. unfold Py.int. now intros ->. Qed.

Lemma int_raises (s : string) :
  Py.parse_int s = None -> exists msg, Py.int s = Raise (Exc ValueError msg).
Proof. unfold Py.int. intros ->. eauto. Qed.

(** What a token adds does not depend on the pages before it. *)
Lemma parse_token_acc (pages : list Z) (tok : string) :
  parse_token pages tok = let? r := parse_token [] tok in Ok (pages ++ r).
Proof.
  unfold parse_token. destruct (Py.contains "-" tok).
  - destruct (Py.unpack2 _) as [[a b]|e]; simpl; [|reflexivity].
    destruct (Py.int a) as [s|e]; simpl; [|reflexivity].
    destruct (Py.int b) as [f|e]; simpl; [|reflexivity].
    destruct (Py.range _ _ _); reflexivity.
  - destruct (Py.int tok); reflexivity.
Qed.

Lemma parse_part_acc (pages : list Z) (part : string) :
  parse_part pages part = let? r := parse_part [] part in Ok (pages ++ r).
Proof.
  unfold parse_part. destruct (Py.is_empty _); simpl.
  - now rewrite app_nil_r.
  - apply parse_token_acc.
Qed.

(** Every exception the parser raises is a [ValueError]. *)
Lemma parse_token_raises (pages : list Z) (tok : string) (e : exception) :
  parse_token pages tok = Raise e -> exc_type e = ValueError.
Proof.
  unfold parse_token, Py.int, Py.range, Py.unpack2.
  repeat (match goal with
          | |- context [match ?x with _ => _ end] => destruct x; simpl
          end); intros [= <-]; reflexivity.
Qed.

Lemma parse_part_raises (pages : list Z) (part : string) (e : exception) :
  parse_part pages part = Raise e -> exc_type e = ValueError.
Proof.
  unfold parse_part. destruct (Py.is_empty _); [discriminate|].
  apply parse_token_raises.
Qed.

Lemma parse_parts_raises (parts : list string) (pages : list Z) (e : exception) :
  parse_parts parts pages = Raise e -> exc_type e = ValueError.
Proof.
  revert pages. induction parts as [|p parts IH]; intros pages; simpl; [discriminate|].
  destruct (parse_part pages p) as [pages'|e'] eqn:Hp; simpl; [apply IH|].
  intros [= <-]. eapply parse_part_raises, Hp.
Qed.

Lemma parse_parts_app (l1 l2 : list string) (pages : list Z) :
  parse_parts (l1 ++ l2) pages
  = let? pages' := parse_parts l1 pages in parse_parts l2 pages'.
Proof.
  revert pages. induction l1 as [|p l1 IH]; intros pages; simpl; [reflexivity|].
  destruct (parse_part pages p); simpl; auto.
Qed.

Lemma parse_parts_concat (parts : list string) (ls : list (list Z)) (pages : list Z) :
  Forall2 (fun part l => parse_part [] part = Ok l) parts ls ->
  parse_parts parts pages = Ok (pages ++ concat ls).
Proof.
  intros H. revert pages. induction H as [|p l parts ls Hp _ IH]; intros pages; simpl.
  - now rewrite app_nil_r.
  - rewrite parse_part_acc, Hp. simpl. rewrite IH. now rewrite <- app_assoc.
Qed.

(** The loop over the pieces is the loop over the non-empty stripped tokens. *)
Lemma parse_parts_tokens (parts : list string) (pages : list Z) :
  parse_parts parts pages
  = parse_tokens (List.filter (fun t => negb (Py.is_empty t)) (map Py.strip parts)) pages.
Proof.
  revert pages. induction parts as [|p parts IH]; intros pages; simpl; [reflexivity|].
  unfold parse_part. destruct (Py.is_empty (Py.strip p)); simpl; [apply IH|].
  destruct (parse_token pages (Py.strip p)); simpl; auto.
Qed.

(** A malformed token stops the loop body with [ValueError]. *)
Lemma malformed_token_raises (pages : list Z) (tok : string) :
  malformed tok -> exists msg, parse_token pages tok = Raise (Exc ValueError msg).
Proof.
  intros [tok' Hne Hc Hi | a b Hc Hi | a b Hc Hi]; unfold parse_token.
  - rewrite Hc. destruct (int_raises _ Hi) as [msg ->]. simpl. eauto.
  - rewrite contains_app, (split1_app _ _ _ Hc). simpl.
    destruct (int_raises _ Hi) as [msg ->]. simpl. eauto.
  - rewrite contains_app, (split1_app _ _ _ Hc). simpl.
    destruct (Py.int a) as [s|[c m]] eqn:Ha; simpl.
    + destruct (int_raises _ Hi) as [msg ->]. simpl. eauto.
    + unfold Py.int in Ha. destruct (Py.parse_int a); [discriminate|].
      injection Ha as <- <-. eauto.
Qed.

Lemma malformed_not_empty (tok : string) : malformed tok -> Py.is_empty tok = false.
Proof.
  intros [tok' Hne _ _ | a b _ _ | a b _ _].
  - destruct tok'; [congruence|reflexivity].
  - destruct a; reflexivity.
  - destruct a; reflexivity.
Qed.

Lemma malformed_part_raises (parts : list string) (part : string) (pages : list Z) :
  In part parts -> malformed (Py.strip part) ->
  exists msg, parse_parts parts pages = Raise (Exc ValueError msg).
Proof.
  intros Hin Hbad. revert pages.
  induction parts as [|p parts IH]; intros pages; [destruct Hin|].
  simpl. destruct (parse_part pages p) as [pages'|[c m]] eqn:Hp; simpl.
  - destruct Hin as [->|Hin]; [|auto].
    unfold parse_part in Hp. rewrite (malformed_not_empty _ Hbad) in Hp.
    destruct (malformed_token_raises pages _ Hbad) as [msg Hmsg]. congruence.
  - apply parse_part_raises in Hp. simpl in Hp. subst c. eauto.
Qed.

Lemma is_empty_split (spec : string) :
  Py.is_empty spec = true -> Py.split "," spec = [EmptyString].
Proof. destruct spec; [reflexivity|discriminate]. Qed.

(** ** Lemmas on the extractor *)

Section ExtractorLemmas.

Context {L : PdfLibrary}.

Lemma set_heap_id (w : world) : set_heap w (heap w) = w.
Proof. now destruct w. Qed.

Lemma check_pages_find (pages_1based : list Z) (total_pages : Z) :
  check_pages pages_1based total_pages
  = match List.find (bad_page total_pages) pages_1based with
    | Some p => Raise (out_of_range p total_pages)
    | None => Ok tt
    end.
Proof.
  induction pages_1based as [|p rest IH]; simpl; [reflexivity|].
  unfold bad_page at 1. destruct ((p <? 1) || (total_pages <? p)); auto.
Qed.

Lemma check_pages_ok (pages_1based : list Z) (total_pages : Z) :
  check_pages pages_1based total_pages = Ok tt
  <-> Forall (fun p => 1 <= p <= total_pages) pages_1based.
Proof.
  induction pages_1based as [|p rest IH]; simpl.
  - split; auto.
  - destruct (Z.ltb_spec p 1); simpl.
    + split; [discriminate|]. intros H'. inversion H'; lia.
    + destruct (Z.ltb_spec total_pages p); simpl.
      * split; [discriminate|]. intros H'. inversion H'; lia.
      * rewrite IH. split; [constructor; auto; lia|]. now intros H'; inversion H'.
Qed.

Lemma getitem_page {A : Type} (pages : list A) (p : Z) :
  1 <= p <= Z.of_nat (length pages) ->
  exists pg, nth_error pages (Z.to_nat (p - 1)) = Some pg /\
             Py.getitem pages (p - 1) = Ok pg.
Proof.
  intros Hp. unfold Py.getitem.
  destruct (Z.ltb_spec (p - 1) 0); [lia|].
  destruct (Z.ltb_spec (p - 1) 0); [lia|].
  destruct (Z.leb_spec (Z.of_nat (length pages)) (p - 1)); [lia|]. simpl.
  destruct (nth_error pages (Z.to_nat (p - 1))) as [pg|] eqn:Hn; [eauto|].
  apply nth_error_None in Hn. lia.
Qed.

Lemma select_pages_cons {A : Type} (pages : list A) (p : Z) (rest : list Z) (pg : A) :
  1 <= p -> nth_error pages (Z.to_nat (p - 1)) = Some pg ->
  select_pages pages (p :: rest) = pg :: select_pages pages rest.
Proof.
  intros Hp Hn. unfold select_pages. simpl.
  destruct (Z.leb_spec 1 p); [|lia]. now rewrite Hn.
Qed.

(** In range, the selection has one page for each position, the source's
    page at the position less one. *)
Lemma select_pages_spec {A : Type} (pages : list A) (pages_1based : list Z) :
  Forall (fun p => 1 <= p <= Z.of_nat (length pages)) pages_1based ->
  Forall2 (fun p pg => nth_error pages (Z.to_nat (p - 1)) = Some pg)
    pages_1based (select_pages pages pages_1based).
Proof.
  induction 1 as [|p rest Hp _ IH]; [constructor|].
  destruct (getitem_page pages p Hp) as (pg & Hn & _).
  rewrite (select_pages_cons _ _ _ pg) by (auto; lia). now constructor.
Qed.

(** The copying loop appends the selected pages to the writer it is given
    and touches nothing else. *)
Lemma copy_pages_run (writer : nat) (rd : reader) (pages : list page)
    (pages_1based : list Z) (w : world) (d : writer_state page) :
  reader_pages rd = Ok pages ->
  Forall (fun p => 1 <= p <= Z.of_nat (length pages)) pages_1based ->
  heap w !! writer = Some (Writer d) ->
  copy_pages writer rd pages_1based w
  = (Ok tt,
     set_heap w (<[writer := Writer (WriterState
                                       (w_pages d ++ select_pages pages pages_1based)
                                       (w_info d))]> (heap w))).
Proof.
  intros Hr Hall. revert w d.
  induction Hall as [|p rest Hp _ IH]; intros w d Hw.
  - unfold select_pages. simpl. rewrite app_nil_r. destruct d as [dp di]. simpl.
    rewrite insert_id by exact Hw. now rewrite set_heap_id.
  - destruct (getitem_page pages p Hp) as (pg & Hn & Hg).
    rewrite (select_pages_cons _ _ _ pg) by (auto; lia).
    simpl. unfold bind at 1, lift at 1. rewrite Hr.
    unfold bind at 1, lift at 1. rewrite Hg.
    unfold bind at 1, add_page at 1. rewrite Hw.
    rewrite (IH _ (WriterState (w_pages d ++ [pg]) (w_info d)))
      by (simpl; apply lookup_insert_eq).
    simpl. unfold set_heap. simpl. rewrite insert_insert_eq.
    now rewrite <- app_assoc.
Qed.

Lemma fresh_lookup (h : gmap nat object) : h !! fresh (dom h) = None.
Proof. apply not_elem_of_dom, is_fresh. Qed.

Lemma stream_write_empty (b : list byte) : stream_write [] 0 b = b.
Proof.
  unfold stream_write. simpl. rewrite drop_nil. apply app_nil_r.
Qed.

(** From the new writer to the bytes returned: what the call does once the
    page numbers have been validated. *)
Lemma build_run (rd : reader) (pages : list page) (pages_1based : list Z) (w : world) :
  reader_pages rd = Ok pages ->
  Forall (fun p => 1 <= p <= Z.of_nat (length pages)) pages_1based ->
  let d := WriterState (select_pages pages pages_1based) output_info in
  exists w',
    bind PdfWriter (fun writer =>
      bind (copy_pages writer rd pages_1based) (fun _ =>
        bind (add_metadata writer extracted_metadata) (fun _ =>
          bind BytesIO_new (fun out_buf =>
            bind (writer_write writer out_buf) (fun _ =>
              bind (seek out_buf 0) (fun _ => read out_buf)))))) w
    = (Ok (serialize d (ambient w)), w')
    /\ heap w' !! fresh (dom (heap w)) = Some (Writer d)
    /\ ambient w' = ambient w
    /\ (forall l o, heap w !! l = Some o -> heap w' !! l = Some o).
Proof.
  intros Hr Hall d.
  set (lw := fresh (dom (heap w))).
  set (h1 := <[lw := Writer (WriterState [] new_info)]> (heap w)).
  set (h2 := <[lw := Writer (WriterState (select_pages pages pages_1based) new_info)]> (heap w)).
  set (h3 := <[lw := Writer d]> (heap w)).
  set (lb := fresh (dom h3)).
  assert (Hlb : h3 !! lb = None) by apply fresh_lookup.
  assert (Hne : lb <> lw).
  { intros E. rewrite E in Hlb. unfold h3 in Hlb. now rewrite lookup_insert_eq in Hlb. }
  set (b := serialize d (ambient w)).
  exists (set_heap w (<[lb := BytesIO b (Nat.max 0 (length b))]> h3)).
  split; [|split; [|split]].
  - unfold bind at 1, PdfWriter, alloc. fold lw. fold h1.
    unfold bind at 1.
    rewrite (copy_pages_run lw rd pages pages_1based _ (WriterState [] new_info) Hr Hall)
      by (simpl; apply lookup_insert_eq).
    simpl. unfold h1. rewrite insert_insert_eq. fold h2.
    unfold bind at 1, add_metadata. simpl. unfold h2 at 1. rewrite lookup_insert_eq.
    simpl. unfold h2. rewrite insert_insert_eq. fold output_info. fold d. fold h3.
    unfold bind at 1, BytesIO_new, alloc. simpl. fold lb.
    unfold bind at 1, writer_write. simpl.
    rewrite lookup_insert_ne by exact Hne. unfold h3 at 1. rewrite lookup_insert_eq.
    rewrite lookup_insert_eq. simpl. rewrite insert_insert_eq.
    rewrite stream_write_empty. fold b.
    unfold bind at 1, seek. simpl. rewrite lookup_insert_eq. rewrite insert_insert_eq.
    unfold read. simpl. rewrite lookup_insert_eq. rewrite insert_insert_eq.
    reflexivity.
  - simpl. rewrite lookup_insert_ne by exact Hne. apply lookup_insert_eq.
  - reflexivity.
  - intros l o Hl. simpl.
    assert (l <> lw).
    { intros ->. unfold lw in Hl. now rewrite fresh_lookup in Hl. }
    assert (h3 !! l = Some o) by (unfold h3; now rewrite lookup_insert_ne).
    rewrite lookup_insert_ne; [assumption|congruence].
Qed.

Lemma bind_lift {A B : Type} (r : result A) (k : A -> M B) (w : world) :
  bind (lift r) k w
  = match r with
    | Ok a => k a w
    | Raise e => (Raise e, w)
    end.
Proof. unfold bind, lift. now destruct r. Qed.

(** The call against the specification's algorithm: it raises what
    [output_document] raises and leaves the heap as it was, or it returns
    the serialisation of the document [output_document] gives, which the
    new writer then holds. *)
Lemma extract_run (pdf_bytes : list byte) (pages_1based : list Z) (w : world) :
  match output_document pdf_bytes pages_1based with
  | Raise e => extract_pages_from_pdf pdf_bytes pages_1based w = (Raise e, w)
  | Ok d =>
      exists w',
        extract_pages_from_pdf pdf_bytes pages_1based w
        = (Ok (serialize d (ambient w)), w')
        /\ heap w' !! fresh (dom (heap w)) = Some (Writer d)
        /\ ambient w' = ambient w
        /\ (forall l o, heap w !! l = Some o -> heap w' !! l = Some o)
  end.
Proof.
  unfold output_document, extract_pages_from_pdf.
  rewrite bind_lift.
  destruct (PdfReader pdf_bytes) as [rd|e]; simpl; [|reflexivity].
  unfold bind at 1.
  assert (Hopen :
    forall rd0 : reader,
      match
        (let? pages := reader_pages rd0 in
         let? _ := check_pages pages_1based (Z.of_nat (length pages)) in
         Ok (WriterState (select_pages pages pages_1based) output_info))
      with
      | Raise e =>
          bind (lift (reader_pages rd0)) (fun pages =>
            bind (lift (check_pages pages_1based (Z.of_nat (length pages)))) (fun _ =>
              bind PdfWriter (fun writer =>
                bind (copy_pages writer rd0 pages_1based) (fun _ =>
                  bind (add_metadata writer extracted_metadata) (fun _ =>
                    bind BytesIO_new (fun out_buf =>
                      bind (writer_write writer out_buf) (fun _ =>
                        bind (seek out_buf 0) (fun _ => read out_buf)))))))) w
          = (Raise e, w)
      | Ok d =>
          exists w',
            bind (lift (reader_pages rd0)) (fun pages =>
              bind (lift (check_pages pages_1based (Z.of_nat (length pages)))) (fun _ =>
                bind PdfWriter (fun writer =>
                  bind (copy_pages writer rd0 pages_1based) (fun _ =>
                    bind (add_metadata writer extracted_metadata) (fun _ =>
                      bind BytesIO_new (fun out_buf =>
                        bind (writer_write writer out_buf) (fun _ =>
                          bind (seek out_buf 0) (fun _ => read out_buf)))))))) w
            = (Ok (serialize d (ambient w)), w')
            /\ heap w' !! fresh (dom (heap w)) = Some (Writer d)
            /\ ambient w' = ambient w
            /\ (forall l o, heap w !! l = Some o -> heap w' !! l = Some o)
      end).
  { intros rd0. rewrite bind_lift.
    destruct (reader_pages rd0) as [pages|e] eqn:Hr; simpl; [|reflexivity].
    rewrite bind_lift.
    destruct (check_pages pages_1based (Z.of_nat (length pages))) as [[]|e] eqn:Hc;
      simpl; [|reflexivity].
    apply check_pages_ok in Hc.
    destruct (build_run rd0 pages pages_1based w Hr Hc) as (w' & Hrun & Hw & Ha & Hold).
    exists w'. auto. }
  destruct (is_encrypted rd).
  - destruct (decrypt rd "") as [[pt rd']|e]; simpl; [apply Hopen|reflexivity].
  - simpl. apply Hopen.
Qed.

End ExtractorLemmas.

(** ** Blank pieces *)

Lemma rstrip_empty_head (c : ascii) (s : string) :
  Py.rstrip (String c s) = EmptyString -> Py.isspace c = true.
Proof.
  simpl. destruct (Py.rstrip s); [|discriminate].
  destruct (Py.isspace c); [reflexivity|discriminate].
Qed.

Lemma lstrip_head (s : string) (c : ascii) (s' : string) :
  Py.lstrip s = String c s' -> Py.isspace c = false.
Proof.
  induction s as [|x s IH]; simpl; [discriminate|].
  destruct (Py.isspace x) eqn:Hx; [exact IH|]. now intros [= <- _].
Qed.

Lemma strip_empty_lstrip (s : string) :
  Py.strip s = EmptyString -> Py.lstrip s = EmptyString.
Proof.
  unfold Py.strip. destruct (Py.lstrip s) as [|c s'] eqn:Hl; [reflexivity|].
  intros Hr. apply rstrip_empty_head in Hr. apply lstrip_head in Hl. congruence.
Qed.

(** A piece that strips to nothing holds no comma: white space only. *)
Lemma blank_no_comma (s : string) :
  Py.strip s = EmptyString -> Py.contains "," s = false.
Proof.
  intros H. apply strip_empty_lstrip in H.
  induction s as [|c s IH]; simpl in *; [reflexivity|].
  destruct (Py.isspace c) eqn:Hc; [|discriminate].
  rewrite (IH H), orb_false_r.
  destruct (Ascii.eqb_spec c ","); [subst c; discriminate|reflexivity].
Qed.

Lemma split_no_sep (sep : ascii) (s : string) :
  Py.contains sep s = false -> Py.split sep s = [s].
Proof.
  induction s as [|c s IH]; simpl; [reflexivity|].
  intros H. apply orb_false_elim in H as [H1 H2]. now rewrite H1, (IH H2).
Qed.

Lemma parse_part_blank (pages : list Z) (part : string) :
  Py.strip part = EmptyString -> parse_part pages part = Ok pages.
Proof. unfold parse_part. now intros ->. Qed.

Lemma parse_page_spec_comma (a b : string) :
  parse_page_spec (a +:+ String "," b)
  = let? pages := parse_parts (Py.split "," a) [] in
    parse_parts (Py.split "," b) pages.
Proof.
  unfold parse_page_spec.
  destruct (Py.is_empty (a +:+ String "," b)) eqn:He.
  - destruct a; discriminate.
  - now rewrite split_app, parse_parts_app.
Qed.

Lemma parse_parts_inv (parts : list string) (acc pages : list Z) :
  parse_parts parts acc = Ok pages ->
  exists ls, Forall2 (fun part l => parse_part [] part = Ok l) parts ls
             /\ pages = acc ++ concat ls.
Proof.
  revert acc. induction parts as [|p parts IH]; intros acc; simpl.
  - intros [= <-]. exists []. split; [constructor|]. now rewrite app_nil_r.
  - rewrite parse_part_acc.
    destruct (parse_part [] p) as [l|e] eqn:Hp; simpl; [|discriminate].
    intros H. destruct (IH _ H) as (ls & Hls & ->).
    exists (l :: ls). split; [now constructor|]. simpl. now rewrite app_assoc.
Qed.

(** ** Numerals: [int(str(n))] is [n] *)

Lemma scan_numeral (d : Decimal.uint) (acc : Z) :
  Py.scan_digits acc false (NilEmpty.string_of_uint d)
  = Some (uint_value acc d, EmptyString).
Proof.
  revert acc. induction d; intros acc; simpl; auto.
Qed.

Lemma uint_value_pos (d : Decimal.uint) (acc : positive) :
  uint_value (Zpos acc) d = Zpos (Pos.of_uint_acc d acc).
Proof.
  revert acc. induction d; intros acc; simpl; auto;
    match goal with
    | |- uint_value ?z _ = _ =>
        match goal with
        | |- _ = Zpos (Pos.of_uint_acc _ ?q) =>
            replace z with (Zpos q) by lia; apply IHd
        end
    end.
Qed.

Lemma uint_value_0 (d : Decimal.uint) :
  uint_value 0 d = Z.of_N (Pos.of_uint d).
Proof.
  induction d; simpl; auto; apply (uint_value_pos d).
Qed.

Lemma numeral_digits (d : Decimal.uint) :
  all_digits (NilEmpty.string_of_uint d) = true.
Proof. induction d; simpl; auto. Qed.

Lemma numeral_head (p : positive) :
  exists c s, NilEmpty.string_of_uint (Pos.to_uint p) = String c s
              /\ Py.digit_value c <> None.
Proof.
  pose proof (DecimalPos.Unsigned.of_to p) as H.
  destruct (Pos.to_uint p); simpl; [discriminate| ..];
    eexists _, _; (split; [reflexivity|discriminate]).
Qed.

Lemma str_nonneg_digits (n : Z) :
  0 <= n -> all_digits (Py.str n) = true /\ Py.str n <> EmptyString.
Proof.
  intros Hn. unfold Py.str. destruct n as [|p|p]; [split; [reflexivity|discriminate]| |lia].
  simpl. unfold NilZero.string_of_uint.
  destruct (numeral_head p) as (c & s & Hs & _).
  destruct (Pos.to_uint p) eqn:Hp; try discriminate;
    (split; [apply numeral_digits|simpl; discriminate]).
Qed.

Lemma unsigned_int_str (n : Z) : 0 <= n -> Py.unsigned_int (Py.str n) = Some n.
Proof.
  intros Hn. unfold Py.str. destruct n as [|p|p]; [reflexivity| |lia].
  simpl. unfold NilZero.string_of_uint.
  destruct (numeral_head p) as (c & s & Hs & Hc).
  assert (Hstr : match Pos.to_uint p with
                 | Decimal.Nil => "0"%string
                 | _ => NilEmpty.string_of_uint (Pos.to_uint p)
                 end = NilEmpty.string_of_uint (Pos.to_uint p)).
  { destruct (Pos.to_uint p); try reflexivity. discriminate. }
  rewrite Hstr. unfold Py.unsigned_int.
  rewrite scan_numeral, uint_value_0, DecimalPos.Unsigned.of_to.
  rewrite Hs. destruct (Py.digit_value c); [reflexivity|congruence].
Qed.

Lemma digit_not_space (c : ascii) :
  Py.digit_value c <> None -> Py.isspace c = false /\ Py.int_isspace c = false.
Proof.
  unfold Py.digit_value, Py.isspace, Py.int_isspace.
  destruct (N.leb_spec 48 (N_of_ascii c)); simpl; [|congruence].
  destruct (N.leb_spec (N_of_ascii c) 57); simpl; [|congruence].
  intros _.
  repeat match goal with
         | |- context [(?a <=? ?b)%N] => destruct (N.leb_spec a b); try lia
         | |- context [(?a =? ?b)%N] => destruct (N.eqb_spec a b); try lia
         end; auto.
Qed.

Lemma digits_no_char (s : string) (c : ascii) :
  all_digits s = true -> Py.digit_value c = None -> Py.contains c s = false.
Proof.
  intros Hs Hc. induction s as [|x s IH]; simpl in *; [reflexivity|].
  destruct (Py.digit_value x) eqn:Hx; [|discriminate].
  rewrite (IH Hs), orb_false_r.
  destruct (Ascii.eqb_spec x c); [congruence|reflexivity].
Qed.

Lemma digits_lstrip (s : string) : all_digits s = true -> Py.lstrip s = s.
Proof.
  destruct s as [|c s]; simpl; [reflexivity|].
  destruct (Py.digit_value c) eqn:Hc; [|discriminate]. intros _.
  assert (Hn : Py.digit_value c <> None) by congruence.
  now rewrite (proj1 (digit_not_space c Hn)).
Qed.

Lemma digits_rstrip (s : string) : all_digits s = true -> Py.rstrip s = s.
Proof.
  induction s as [|c s IH]; simpl; [reflexivity|].
  destruct (Py.digit_value c) eqn:Hc; [|discriminate]. intros Hs.
  assert (Hn : Py.digit_value c <> None) by congruence.
  rewrite (IH Hs), (proj1 (digit_not_space c Hn)). now destruct s.
Qed.

Lemma parse_int_str (n : Z) : 0 <= n -> Py.parse_int (Py.str n) = Some n.
Proof.
  intros Hn. destruct (str_nonneg_digits n Hn) as [Hd Hne].
  pose proof (unsigned_int_str n Hn) as Hu.
  unfold Py.parse_int.
  destruct (Py.str n) as [|c s]; [congruence|].
  simpl in Hd. destruct (Py.digit_value c) as [v|] eqn:Hc; [|discriminate].
  assert (Hnc : Py.digit_value c <> None) by congruence.
  assert (Hsk : Py.skip_space (String c s) = String c s).
  { simpl. now rewrite (proj2 (digit_not_space c Hnc)). }
  rewrite Hsk. clear Hsk Hnc Hd Hne.
  destruct c as [[] [] [] [] [] [] [] []]; try exact Hu;
    vm_compute in Hc; discriminate.
Qed.

(** A numeral alone is a token that gives its number. *)
Lemma parse_part_str (n : Z) : 0 <= n -> parse_part [] (Py.str n) = Ok [n].
Proof.
  intros Hn. destruct (str_nonneg_digits n Hn) as [Hd Hne].
  unfold parse_part, Py.strip. rewrite (digits_lstrip _ Hd), (digits_rstrip _ Hd).
  destruct (Py.is_empty (Py.str n)) eqn:He; [destruct (Py.str n); [congruence|discriminate]|].
  unfold parse_token. rewrite (digits_no_char _ "-" Hd eq_refl).
  now rewrite (int_ok _ _ (parse_int_str n Hn)).
Qed.

Lemma split_concat (l : list string) :
  l <> [] -> Forall (fun s => Py.contains "," s = false) l ->
  Py.split "," (String.concat "," l) = l.
Proof.
  intros Hne Hall. induction Hall as [|x l Hx Hl IH]; [congruence|].
  destruct l as [|y l].
  - simpl. now apply split_no_sep.
  - change (String.concat "," (x :: y :: l))
      with (x +:+ String "," (String.concat "," (y :: l))).
    rewrite split_app, (split_no_sep _ _ Hx), IH by discriminate. reflexivity.
Qed.

(** Typing a list of page numbers and parsing it gives the list back. *)
Lemma parse_typed (pages : list Z) :
  Forall (fun p => 0 <= p) pages -> parse_page_spec (typed pages) = Ok pages.
Proof.
  intros Hall. destruct pages as [|p pages]; [reflexivity|].
  unfold parse_page_spec, typed.
  assert (Hsplit : Py.split "," (String.concat "," (map Py.str (p :: pages)))
                   = map Py.str (p :: pages)).
  { apply split_concat; [discriminate|].
    apply List.Forall_map. eapply List.Forall_impl; [|exact Hall].
    intros n Hn. simpl. apply digits_no_char; [|reflexivity].
    now apply str_nonneg_digits. }
  destruct (Py.is_empty _) eqn:He.
  - apply is_empty_split in He. rewrite He in Hsplit.
    injection Hsplit as Hs _. symmetry in Hs.
    inversion Hall; subst. now apply str_nonneg_digits in Hs.
  - rewrite Hsplit.
    rewrite (parse_parts_concat _ (map (fun n => [n]) (p :: pages))).
    + f_equal. simpl. f_equal. clear. induction pages; simpl; congruence.
    + clear He Hsplit. induction Hall as [|n l Hn _ IH]; simpl; constructor; auto.
      now apply parse_part_str.
Qed.

(** ** Signs *)

Lemma digit_value_nonneg (c : ascii) (d : Z) : Py.digit_value c = Some d -> 0 <= d.
Proof.
  unfold Py.digit_value. destruct (_ && _)%bool; [|discriminate].
  intros [= <-]. lia.
Qed.

Lemma scan_digits_nonneg (s : string) (acc : Z) (us : bool) (v : Z) (rest : string) :
  0 <= acc -> Py.scan_digits acc us s = Some (v, rest) -> 0 <= v.
Proof.
  revert acc us. induction s as [|c s IH]; intros acc us Hacc; simpl.
  - destruct us; [discriminate|]. now intros [= <- _].
  - destruct (Py.digit_value c) as [d|] eqn:Hd.
    + apply IH. apply digit_value_nonneg in Hd. lia.
    + destruct (Ascii.eqb c "_").
      * destruct us; [discriminate|]. now apply IH.
      * destruct us; [discriminate|]. now intros [= <- _].
Qed.

Lemma unsigned_int_nonneg (s : string) (v : Z) : Py.unsigned_int s = Some v -> 0 <= v.
Proof.
  unfold Py.unsigned_int. destruct s as [|c s]; [discriminate|].
  destruct (Py.digit_value c); [|discriminate].
  destruct (Py.scan_digits 0 false (String c s)) as [[v' rest]|] eqn:Hs; [|discriminate].
  destruct (Py.all_space rest); [|discriminate].
  intros [= <-]. eapply scan_digits_nonneg; [|exact Hs]. lia.
Qed.

Lemma skip_space_head (a : string) (c : ascii) (s : string) :
  Py.skip_space a = String c s -> Py.contains c a = true.
Proof.
  induction a as [|x a IH]; simpl; [discriminate|].
  destruct (Py.int_isspace x).
  - intros H. rewrite (IH H). apply orb_true_r.
  - intros [= -> _]. now rewrite Ascii.eqb_refl.
Qed.

(** Text without [-] is never read as a negative number. *)
Lemma parse_int_no_minus (a : string) (n : Z) :
  Py.contains "-" a = false -> Py.parse_int a = Some n -> 0 <= n.
Proof.
  intros Hc. unfold Py.parse_int.
  destruct (Py.skip_space a) as [|c s] eqn:Hs; [apply unsigned_int_nonneg|].
  apply skip_space_head in Hs.
  destruct (Ascii.eqb_spec c "-") as [->|Hne]; [congruence|].
  destruct (Ascii.eqb_spec c "+") as [->|Hne']; [apply unsigned_int_nonneg|].
  destruct c as [[] [] [] [] [] [] [] []];
    try apply unsigned_int_nonneg; congruence.
Qed.

(** * The claims about [parse_page_spec] *)

(** C4: a token [start-end] whose two sides, cut at its first [-], are
    integers appends the inclusive integer sequence from [start] to [end],
    upwards when [start <= end] and downwards otherwise; in particular
    [7-4] gives 7, 6, 5, 4 and [1,3-5,10] gives 1, 3, 4, 5, 10. *)
Theorem range_token_appends_inclusive_seq :
  (forall (pages : list Z) (part a b : string) (s e : Z),
      Py.strip part = a +:+ String "-" b ->
      Py.contains "-" a = false ->
      Py.parse_int a = Some s ->
      Py.parse_int b = Some e ->
      parse_part pages part = Ok (pages ++ inclusive_seq s e))
  /\ parse_page_spec "7-4" = Ok [7; 6; 5; 4]
  /\ parse_page_spec "1,3-5,10" = Ok [1; 3; 4; 5; 10].
Proof.
  split; [|split; reflexivity].
  intros pages part a b s e Hs Ha Hia Hib.
  unfold parse_part. rewrite Hs.
  destruct (Py.is_empty (a +:+ String "-" b)) eqn:He; [destruct a; discriminate|].
  unfold parse_token. rewrite contains_app, (split1_app _ _ _ Ha). simpl.
  rewrite (int_ok _ _ Hia), (int_ok _ _ Hib). simpl.
  pose proof (range_inclusive s e) as Hr. simpl in Hr. now rewrite Hr.
Qed.

Lemma range_token_appends_inclusive_seq_witness :
  parse_part [1] " 7-4 " = Ok ([1] ++ inclusive_seq 7 4).
Proof.
  apply (proj1 range_token_appends_inclusive_seq [1] " 7-4 " "7" "4" 7 4);
    reflexivity.
Defined.

(** C5: an input with a malformed token (a lone [-], a range with a missing
    or non-integer side such as [3-] or [a-3], a single token that is no
    integer such as [x]) fails with [ParseError]: the token is not skipped
    and no partial list is returned. *)
Theorem malformed_token_fails :
  (forall (spec part : string),
      In part (Py.split "," spec) ->
      malformed (Py.strip part) ->
      is_parse_error (parse_page_spec spec) = true)
  /\ is_parse_error (parse_page_spec "-") = true
  /\ is_parse_error (parse_page_spec "3-") = true
  /\ is_parse_error (parse_page_spec "a-3") = true
  /\ is_parse_error (parse_page_spec "x") = true
  /\ is_parse_error (parse_page_spec "1,x,3") = true
  /\ is_parse_error (parse_page_spec "1,2,3-") = true.
Proof.
  split; [|repeat split; reflexivity].
  intros spec part Hin Hbad. unfold parse_page_spec.
  destruct (Py.is_empty spec) eqn:He.
  - rewrite (is_empty_split _ He) in Hin. destruct Hin as [<-|[]].
    apply malformed_not_empty in Hbad. discriminate.
  - destruct (malformed_part_raises _ _ [] Hin Hbad) as [msg ->]. reflexivity.
Qed.

Lemma malformed_token_fails_witness :
  is_parse_error (parse_page_spec "1, 3- ,x") = true.
Proof.
  apply (proj1 malformed_token_fails "1, 3- ,x" " 3- ").
  - right. left. reflexivity.
  - apply (malformed_end "3" EmptyString); reflexivity.
Defined.

(** C3, as the code has it: a token that begins with [-], such as the
    negative integer literal [-3], is cut at that [-] into an empty start
    and the rest, and the parser fails with [ParseError]; a single token and
    the start of a range are never negative, a negative number is accepted
    only as the end of a range ([3--1] gives 3, 2, 1, 0, -1), and the parser
    checks no bounds. *)
Theorem leading_minus_token_fails :
  (forall (spec part rest : string),
      In part (Py.split "," spec) ->
      Py.strip part = String "-" rest ->
      is_parse_error (parse_page_spec spec) = true)
  /\ (forall (a : string) (n : Z),
         Py.contains "-" a = false -> Py.int a = Ok n -> 0 <= n)
  /\ parse_page_spec "3--1" = Ok [3; 2; 1; 0; -1].
Proof.
  split; [|split; [|reflexivity]].
  - intros spec part rest Hin Hs.
    assert (Hbad : malformed (Py.strip part)).
    { rewrite Hs. apply (malformed_start EmptyString rest); reflexivity. }
    unfold parse_page_spec. destruct (Py.is_empty spec) eqn:He.
    + rewrite (is_empty_split _ He) in Hin. destruct Hin as [<-|[]]. discriminate.
    + destruct (malformed_part_raises _ _ [] Hin Hbad) as [msg ->]. reflexivity.
  - intros a n Hc Hi. unfold Py.int in Hi.
    destruct (Py.parse_int a) as [m|] eqn:Hp; [|discriminate].
    injection Hi as <-. eapply parse_int_no_minus; eauto.
Qed.

Lemma leading_minus_token_fails_witness :
  is_parse_error (parse_page_spec "1, -3") = true.
Proof.
  apply (proj1 leading_minus_token_fails "1, -3" " -3" "3").
  - right. left. reflexivity.
  - reflexivity.
Defined.

(** C3, as the specification states it, fails: [-3] is an integer literal
    for [int], and [parse_page_spec] rejects it. *)
Lemma negative_literal_rejected :
  Py.int "-3" = Ok (-3)
  /\ parse_page_spec "-3"
     = Raise (Exc ValueError "invalid literal for int() with base 10: ''").
Proof. split; reflexivity. Qed.

(** C7: the result of a well-formed spec is the concatenation, in token
    order, of what each token gives; a list of page numbers typed as
    numerals between commas comes back as it is, with its order and its
    duplicates: nothing is removed and nothing is sorted; [2,2,2] gives
    2, 2, 2. *)
Theorem result_is_tokens_in_order :
  (forall (spec : string) (pages : list Z),
      parse_page_spec spec = Ok pages
      <-> exists ls,
            Forall2 (fun part l => parse_part [] part = Ok l)
              (Py.split "," spec) ls
            /\ pages = concat ls)
  /\ (forall pages : list Z,
         Forall (fun p => 0 <= p) pages ->
         parse_page_spec (typed pages) = Ok pages)
  /\ parse_page_spec "2,2,2" = Ok [2; 2; 2]
  /\ parse_page_spec "3,1,2,1" = Ok [3; 1; 2; 1]
  /\ parse_page_spec "5,2-4,4-2,5" = Ok [5; 2; 3; 4; 4; 3; 2; 5].
Proof.
  split; [|split; [exact parse_typed|repeat split; reflexivity]].
  intros spec pages. unfold parse_page_spec.
  destruct (Py.is_empty spec) eqn:He.
  - rewrite (is_empty_split _ He). split.
    + intros [= <-]. exists [[]]. split; [|reflexivity].
      constructor; [reflexivity|constructor].
    + intros (ls & Hls & ->).
      inversion Hls as [|p l ps ls' Hp Hrest]; subst.
      inversion Hrest; subst. simpl in Hp. injection Hp as <-. reflexivity.
  - split.
    + intros H. destruct (parse_parts_inv _ _ _ H) as (ls & Hls & ->). eauto.
    + intros (ls & Hls & ->). now rewrite (parse_parts_concat _ ls).
Qed.

Lemma result_is_tokens_in_order_witness :
  parse_page_spec "2,1-2,2" = Ok (concat [[2]; [1; 2]; [2]])
  /\ parse_page_spec (typed [12; 2; 12; 2; 0]) = Ok [12; 2; 12; 2; 0].
Proof.
  split.
  - apply (proj2 (proj1 result_is_tokens_in_order "2,1-2,2" _)).
    exists [[2]; [1; 2]; [2]]. split; [|reflexivity].
    repeat constructor.
  - apply (proj1 (proj2 result_is_tokens_in_order) [12; 2; 12; 2; 0]).
    repeat constructor; lia.
Defined.

(** * The claims about [extract_pages_from_pdf] *)

Section ExtractorClaims.

Context {L : PdfLibrary}.

Lemma readable_output (pdf_bytes : list byte) (pages : list page) (pages_1based : list Z) :
  readable pdf_bytes pages ->
  output_document pdf_bytes pages_1based
  = let? _ := check_pages pages_1based (Z.of_nat (length pages)) in
    Ok (WriterState (select_pages pages pages_1based) output_info).
Proof.
  intros (rd & Hrd & [[He Hp] | (He & pt & rd' & Hd & Hp)]);
    unfold output_document; rewrite Hrd; simpl; rewrite He.
  - simpl. now rewrite Hp.
  - rewrite Hd. simpl. now rewrite Hp.
Qed.

Lemma find_bad_page (pages_1based : list Z) (total_pages : Z) :
  match List.find (bad_page total_pages) pages_1based with
  | Some p => In p pages_1based /\ (p < 1 \/ total_pages < p)
  | None => Forall (fun p => 1 <= p <= total_pages) pages_1based
  end.
Proof.
  destruct (List.find _ _) as [p|] eqn:Hf.
  - apply find_some in Hf as [Hin Hb]. split; [exact Hin|].
    unfold bad_page in Hb. apply orb_true_iff in Hb as [Hb|Hb];
      apply Z.ltb_lt in Hb; auto.
  - apply List.Forall_forall. intros p Hin.
    pose proof (find_none _ _ Hf p Hin) as Hb. unfold bad_page in Hb.
    apply orb_false_elim in Hb as [H1 H2].
    apply Z.ltb_ge in H1, H2. lia.
Qed.

(** C1: for a valid source and page numbers all within [1, totalPages], the
    call returns the serialisation of the document whose pages are, for each
    page number [p] of the list in order, the source's page at index [p - 1];
    the writer it built holds that document. *)
Theorem output_pages_are_selected_in_order
    (pdf_bytes : list byte) (pages : list page) (pages_1based : list Z) (w : world) :
  readable pdf_bytes pages ->
  Forall (fun p => 1 <= p <= Z.of_nat (length pages)) pages_1based ->
  exists out : list page,
    Forall2 (fun p pg => nth_error pages (Z.to_nat (p - 1)) = Some pg) pages_1based out
    /\ fst (extract_pages_from_pdf pdf_bytes pages_1based w)
       = Ok (serialize (WriterState out output_info) (ambient w))
    /\ heap (snd (extract_pages_from_pdf pdf_bytes pages_1based w))
         !! fresh (dom (heap w))
       = Some (Writer (WriterState out output_info)).
Proof.
  intros Hread Hall. exists (select_pages pages pages_1based).
  split; [now apply select_pages_spec|].
  pose proof (extract_run pdf_bytes pages_1based w) as Hrun.
  rewrite (readable_output _ _ _ Hread) in Hrun.
  apply check_pages_ok in Hall. rewrite Hall in Hrun. simpl in Hrun.
  destruct Hrun as (w' & -> & Hw & _). auto.
Qed.

(** C2: for a valid source, the call raises the out-of-range [ValueError]
    exactly when some page number is below 1 or above the page count; the
    message names the first such page number and the range [1..totalPages];
    the heap is then as before the call: no writer exists and no page has
    been appended.  With every page number in range the call returns. *)
Theorem out_of_range_iff_some_page_outside
    (pdf_bytes : list byte) (pages : list page) (pages_1based : list Z) (w : world) :
  readable pdf_bytes pages ->
  let total_pages := Z.of_nat (length pages) in
  (Exists (fun p => p < 1 \/ total_pages < p) pages_1based
   <-> exists msg,
         fst (extract_pages_from_pdf pdf_bytes pages_1based w)
         = Raise (Exc ValueError msg))
  /\ (forall e,
         fst (extract_pages_from_pdf pdf_bytes pages_1based w) = Raise e ->
         exists p,
           List.find (bad_page total_pages) pages_1based = Some p
           /\ In p pages_1based /\ (p < 1 \/ total_pages < p)
           /\ e = Exc ValueError
                    ("Page " +:+ Py.str p +:+ " is out of range (1.."
                       +:+ Py.str total_pages +:+ ").")
           /\ snd (extract_pages_from_pdf pdf_bytes pages_1based w) = w)
  /\ (Forall (fun p => 1 <= p <= total_pages) pages_1based ->
      exists out, fst (extract_pages_from_pdf pdf_bytes pages_1based w) = Ok out).
Proof.
  intros Hread total_pages.
  pose proof (extract_run pdf_bytes pages_1based w) as Hrun.
  rewrite (readable_output _ _ _ Hread), check_pages_find in Hrun.
  fold total_pages in Hrun.
  pose proof (find_bad_page pages_1based total_pages) as Hfind.
  destruct (List.find (bad_page total_pages) pages_1based) as [p|] eqn:Hf;
    simpl in Hrun.
  - destruct Hfind as [Hin Hbad]. rewrite Hrun. simpl.
    split; [|split].
    + split; [intros _; eexists; reflexivity|].
      intros _. apply List.Exists_exists. eauto.
    + intros e [= <-]. exists p. auto.
    + intros Hall. rewrite List.Forall_forall in Hall. specialize (Hall p Hin). lia.
  - destruct Hrun as (w' & -> & _). simpl.
    split; [|split].
    + split; [|intros [msg Hm]; discriminate].
      intros Hex. apply List.Exists_exists in Hex as (p & Hin & Hbad).
      rewrite List.Forall_forall in Hfind. specialize (Hfind p Hin). lia.
    + intros e He. discriminate.
    + eauto.
Qed.

(** For a source that parses as an encrypted document, the call tries
    [decrypt] with the empty password; when that call raises, the call
    raises the [RuntimeError] that says the document is encrypted, returns no
    bytes and has built no document; when it does not raise, the call goes on
    with the reader as [decrypt] left it, whatever [decrypt] returned. *)
Lemma encrypted_source_unlock_or_error
    (pdf_bytes : list byte) (rd : reader) (pages_1based : list Z) (w : world) :
  PdfReader pdf_bytes = Ok rd ->
  is_encrypted rd = true ->
  match decrypt rd "" with
  | Raise e =>
      extract_pages_from_pdf pdf_bytes pages_1based w
      = (Raise (Exc RuntimeError
                  ("PDF is encrypted and cannot be opened without a password: "
                     +:+ exc_str e)), w)
  | Ok (_, rd') =>
      forall pages,
        reader_pages rd' = Ok pages ->
        Forall (fun p => 1 <= p <= Z.of_nat (length pages)) pages_1based ->
        fst (extract_pages_from_pdf pdf_bytes pages_1based w)
        = Ok (serialize (WriterState (select_pages pages pages_1based) output_info)
                (ambient w))
  end.
Proof.
  intros Hrd He.
  pose proof (extract_run pdf_bytes pages_1based w) as Hrun.
  unfold output_document in Hrun. rewrite Hrd in Hrun. simpl in Hrun.
  rewrite He in Hrun.
  destruct (decrypt rd "") as [[pt rd']|e]; simpl in Hrun; [|exact Hrun].
  intros pages Hp Hall. rewrite Hp in Hrun. simpl in Hrun.
  apply check_pages_ok in Hall. rewrite Hall in Hrun. simpl in Hrun.
  destruct Hrun as (w' & -> & _). reflexivity.
Qed.

(** When [decrypt] reports failure without raising and the library then
    refuses the pages, the call raises the library's exception, not the
    [RuntimeError]: the value [decrypt] returns is not looked at. *)
Remark silent_decrypt_failure_surfaces_later
    (pdf_bytes : list byte) (rd rd' : reader) (pt : password_type) (e : exception)
    (pages_1based : list Z) (w : world) :
  PdfReader pdf_bytes = Ok rd ->
  is_encrypted rd = true ->
  decrypt rd "" = Ok (pt, rd') ->
  reader_pages rd' = Raise e ->
  extract_pages_from_pdf pdf_bytes pages_1based w = (Raise e, w).
Proof.
  intros Hrd He Hd Hp.
  pose proof (extract_run pdf_bytes pages_1based w) as Hrun.
  unfold output_document in Hrun. rewrite Hrd in Hrun. simpl in Hrun.
  rewrite He, Hd in Hrun. simpl in Hrun. now rewrite Hp in Hrun.
Qed.


(** C10: for a valid source that is not encrypted, the call with the empty
    page list raises nothing and returns the serialisation of a document with
    no page. *)
Theorem empty_page_list_gives_empty_document
    (pdf_bytes : list byte) (rd : reader) (pages : list page) (w : world) :
  PdfReader pdf_bytes = Ok rd ->
  is_encrypted rd = false ->
  reader_pages rd = Ok pages ->
  fst (extract_pages_from_pdf pdf_bytes [] w)
  = Ok (serialize (WriterState [] output_info) (ambient w))
  /\ heap (snd (extract_pages_from_pdf pdf_bytes [] w)) !! fresh (dom (heap w))
     = Some (Writer (WriterState [] output_info)).
Proof.
  intros Hrd He Hp.
  pose proof (extract_run pdf_bytes [] w) as Hrun.
  unfold output_document in Hrun. rewrite Hrd in Hrun. simpl in Hrun.
  rewrite He in Hrun. simpl in Hrun. rewrite Hp in Hrun. simpl in Hrun.
  destruct Hrun as (w' & -> & Hw & _). auto.
Qed.

End ExtractorClaims.

(** ** The claims at documents of the small library *)

Lemma toy_readable (ps : list byte) : readable (L := toy) ("P"%byte :: ps) ps.
Proof. exists (ToyReader TagP true ps). split; [reflexivity|]. left. split; reflexivity. Qed.

(** The specification's round trip: pages A, B, C and the list 3, 1 give
    a document of two pages, C then A. *)
Lemma output_pages_are_selected_in_order_witness :
  exists out : list byte,
    Forall2 (fun p pg => nth_error ["A"; "B"; "C"]%byte (Z.to_nat (p - 1)) = Some pg)
      [3; 1] out
    /\ fst (extract_pages_from_pdf (L := toy) ["P"; "A"; "B"; "C"]%byte [3; 1]
              (empty_world toy))
       = Ok out
    /\ out = ["C"; "A"]%byte.
Proof.
  destruct (output_pages_are_selected_in_order (L := toy)
              ["P"; "A"; "B"; "C"]%byte ["A"; "B"; "C"]%byte [3; 1] (empty_world toy))
    as (out & Hsel & Hout & _).
  - apply toy_readable.
  - repeat constructor; simpl; lia.
  - exists out. split; [exact Hsel|]. split; [exact Hout|].
    inversion Hsel as [|p pg ps out' Hp Hrest]; subst.
    inversion Hrest as [|p' pg' ps' out'' Hp' Hrest']; subst.
    inversion Hrest'; subst. vm_compute in Hp, Hp'.
    injection Hp as <-. injection Hp' as <-. reflexivity.
Defined.

Lemma out_of_range_iff_some_page_outside_witness :
  exists p,
    List.find (bad_page 3) [3; 0; 7] = Some p
    /\ In p [3; 0; 7] /\ (p < 1 \/ 3 < p)
    /\ Exc ValueError "Page 0 is out of range (1..3)."
       = Exc ValueError
           ("Page " +:+ Py.str p +:+ " is out of range (1.." +:+ Py.str 3 +:+ ").")
    /\ snd (extract_pages_from_pdf (L := toy) ["P"; "A"; "B"; "C"]%byte [3; 0; 7]
              (empty_world toy))
       = empty_world toy.
Proof.
  exact (proj1 (proj2 (out_of_range_iff_some_page_outside (L := toy)
                         ["P"; "A"; "B"; "C"]%byte ["A"; "B"; "C"]%byte [3; 0; 7]
                         (empty_world toy) (toy_readable _)))
           (Exc ValueError "Page 0 is out of range (1..3).") eq_refl).
Defined.

Lemma encrypted_source_unlock_or_error_witness :
  extract_pages_from_pdf (L := toy) ["X"; "A"; "B"]%byte [1] (empty_world toy)
  = (Raise (Exc RuntimeError
              "PDF is encrypted and cannot be opened without a password: unsupported encryption"),
     empty_world toy).
Proof.
  exact (encrypted_source_unlock_or_error (L := toy) ["X"; "A"; "B"]%byte
           (ToyReader TagX false ["A"; "B"]%byte) [1] (empty_world toy)
           eq_refl eq_refl).
Defined.


Lemma empty_page_list_gives_empty_document_witness :
  fst (extract_pages_from_pdf (L := toy) ["P"; "A"; "B"]%byte [] (empty_world toy))
  = Ok [].
Proof.
  exact (proj1 (empty_page_list_gives_empty_document (L := toy) ["P"; "A"; "B"]%byte
                  (ToyReader TagP true ["A"; "B"]%byte) ["A"; "B"]%byte (empty_world toy)
                  eq_refl eq_refl eq_refl)).
Defined.

(** * Further properties of [parse_page_spec] *)






Lemma parse_parts_acc (parts : list string) (acc : list Z) :
  parse_parts parts acc = let? r := parse_parts parts [] in Ok (acc ++ r).
Proof.
  revert acc. induction parts as [|p parts IH]; intros acc; simpl.
  - now rewrite app_nil_r.
  - rewrite parse_part_acc. destruct (parse_part [] p) as [l|e]; simpl; [|reflexivity].
    rewrite (IH (acc ++ l)), (IH l).
    destruct (parse_parts parts []); simpl; [|reflexivity]. now rewrite app_assoc.
Qed.

Lemma parse_page_spec_parts (spec : string) :
  parse_page_spec spec = parse_parts (Py.split "," spec) [].
Proof. unfold parse_page_spec. now destruct spec. Qed.

Lemma parse_page_spec_concat (a b : string) :
  parse_page_spec (a +:+ String "," b)
  = let? x := parse_page_spec a in
    let? y := parse_page_spec b in
    Ok (x ++ y).
Proof.
  rewrite parse_page_spec_comma, !parse_page_spec_parts.
  destruct (parse_parts (Py.split "," a) []) as [x|e]; simpl; [|reflexivity].
  apply parse_parts_acc.
Qed.

(** X2: a comma joins two specs: the result of [a,b] is the result of [a]
    followed by the result of [b]; when [a] fails its exception is raised,
    and when only [b] fails, that of [b]. *)
Theorem parse_comma_concatenates (a b : string) :
  parse_page_spec (a +:+ String "," b)
  = let? x := parse_page_spec a in
    let? y := parse_page_spec b in
    Ok (x ++ y).
Proof. exact (parse_page_spec_concat a b). Qed.

(** ** The shape of a range *)

Lemma steps_in (from step : Z) (n : nat) (x : Z) :
  In x (steps from step n)
  <-> exists i : nat, (i < n)%nat /\ x = from + Z.of_nat i * step.
Proof.
  revert from. induction n as [|n IH]; intros from; simpl.
  - split; [intros []|intros (i & Hi & _); lia].
  - rewrite IH. split.
    + intros [<- | (i & Hi & ->)]; [exists 0%nat; split; lia|].
      exists (S i). split; lia.
    + intros ([|i] & Hi & ->); [left; lia|].
      right. exists i. split; lia.
Qed.

Lemma steps_nodup (from step : Z) (n : nat) : step <> 0 -> List.NoDup (steps from step n).
Proof.
  intros Hs. revert from. induction n as [|n IH]; intros from; simpl; constructor; auto.
  rewrite steps_in. intros (i & _ & Hi). nia.
Qed.

Lemma steps_last (from step : Z) (n : nat) (d : Z) :
  List.last (steps from step (S n)) d = from + Z.of_nat n * step.
Proof.
  revert from. induction n as [|n IH]; intros from; [simpl; lia|].
  change (steps from step (S (S n))) with (from :: steps (from + step) step (S n)).
  change (List.last (from :: steps (from + step) step (S n)) d)
    with (List.last (steps (from + step) step (S n)) d).
  rewrite IH. lia.
Qed.

(** X3: the pages a range token [a-b] gives begin at its start and end at
    its end, are [|end - start| + 1] in number, lie between the two, and
    hold no page twice. *)
Theorem range_token_shape (part a b : string) (s e : Z) (l : list Z) :
  Py.strip part = a +:+ String "-" b ->
  Py.contains "-" a = false ->
  Py.parse_int a = Some s ->
  Py.parse_int b = Some e ->
  parse_part [] part = Ok l ->
  List.hd_error l = Some s
  /\ List.last l s = e
  /\ Z.of_nat (length l) = Z.abs (e - s) + 1
  /\ (forall x, In x l <-> Z.min s e <= x <= Z.max s e)
  /\ List.NoDup l.
Proof.
  intros Hs Ha Hia Hib. unfold parse_part. rewrite Hs.
  destruct (Py.is_empty (a +:+ String "-" b)) eqn:He; [destruct a; discriminate|].
  unfold parse_token. rewrite contains_app, (split1_app _ _ _ Ha). simpl.
  rewrite (int_ok _ _ Hia), (int_ok _ _ Hib). simpl.
  pose proof (range_inclusive s e) as Hr. simpl in Hr. rewrite Hr. simpl.
  intros [= <-]. unfold inclusive_seq.
  destruct (Z.leb_spec s e) as [Hle|Hgt].
  - replace (Z.to_nat (e - s + 1)) with (S (Z.to_nat (e - s))) by lia.
    split; [reflexivity|]. split; [rewrite steps_last; lia|].
    split; [rewrite steps_length; lia|].
    split; [|apply steps_nodup; lia].
    intros x. rewrite steps_in. split.
    + intros (i & Hi & ->). lia.
    + intros Hx. exists (Z.to_nat (x - s)). split; lia.
  - replace (Z.to_nat (s - e + 1)) with (S (Z.to_nat (s - e))) by lia.
    split; [reflexivity|]. split; [rewrite steps_last; lia|].
    split; [rewrite steps_length; lia|].
    split; [|apply steps_nodup; lia].
    intros x. rewrite steps_in. split.
    + intros (i & Hi & ->). lia.
    + intros Hx. exists (Z.to_nat (s - x)). split; lia.
Qed.

Lemma range_token_shape_witness :
  List.hd_error [7; 6; 5; 4] = Some 7
  /\ List.last [7; 6; 5; 4] 7 = 4
  /\ Z.of_nat (length [7; 6; 5; 4]) = Z.abs (4 - 7) + 1
  /\ (forall x, In x [7; 6; 5; 4] <-> Z.min 7 4 <= x <= Z.max 7 4)
  /\ List.NoDup [7; 6; 5; 4].
Proof.
  exact (range_token_shape " 7-4" "7" "4" 7 4 [7; 6; 5; 4]
           eq_refl eq_refl eq_refl eq_refl eq_refl).
Defined.

(** ** White space around tokens *)

Lemma lstrip_space_app (ws s : string) :
  all_isspace ws = true -> Py.lstrip (ws +:+ s) = Py.lstrip s.
Proof.
  induction ws as [|c ws IH]; simpl; [reflexivity|].
  intros H. apply andb_prop in H as [Hc Hws]. rewrite Hc. auto.
Qed.

Lemma lstrip_all_space (ws : string) : all_isspace ws = true -> Py.lstrip ws = EmptyString.
Proof.
  induction ws as [|c ws IH]; simpl; [reflexivity|].
  intros H. apply andb_prop in H as [Hc Hws]. rewrite Hc. auto.
Qed.

Lemma rstrip_all_space (ws : string) : all_isspace ws = true -> Py.rstrip ws = EmptyString.
Proof.
  induction ws as [|c ws IH]; simpl; [reflexivity|].
  intros H. apply andb_prop in H as [Hc Hws]. now rewrite (IH Hws), Hc.
Qed.

Lemma rstrip_app_space (s ws : string) :
  all_isspace ws = true -> Py.rstrip (s +:+ ws) = Py.rstrip s.
Proof.
  intros H. induction s as [|c s IH]; simpl.
  - now apply rstrip_all_space.
  - now rewrite IH.
Qed.

Lemma lstrip_app (s t : string) :
  Py.lstrip (s +:+ t)
  = if Py.is_empty (Py.lstrip s) then Py.lstrip t else Py.lstrip s +:+ t.
Proof.
  induction s as [|c s IH]; simpl; [reflexivity|].
  destruct (Py.isspace c); [exact IH|reflexivity].
Qed.

Lemma strip_leading (ws s : string) :
  all_isspace ws = true -> Py.strip (ws +:+ s) = Py.strip s.
Proof. intros H. unfold Py.strip. now rewrite lstrip_space_app. Qed.

Lemma strip_trailing (s ws : string) :
  all_isspace ws = true -> Py.strip (s +:+ ws) = Py.strip s.
Proof.
  intros H. unfold Py.strip. rewrite lstrip_app.
  destruct (Py.lstrip s) as [|c r] eqn:Hl.
  - simpl. now rewrite (lstrip_all_space _ H).
  - change (Py.is_empty (String c r)) with false. cbv iota.
    now apply rstrip_app_space.
Qed.

Lemma space_no_comma (ws : string) : all_isspace ws = true -> Py.contains "," ws = false.
Proof.
  induction ws as [|c ws IH]; simpl; [reflexivity|].
  intros H. apply andb_prop in H as [Hc Hws]. rewrite (IH Hws), orb_false_r.
  destruct (Ascii.eqb_spec c ","); [subst c; discriminate|reflexivity].
Qed.

(** Leading white space stays with the first piece, trailing white space
    with the last one. *)
Lemma split_leading (ws t : string) :
  all_isspace ws = true ->
  Forall2 (fun p q => exists w, all_isspace w = true /\ p = w +:+ q)
    (Py.split "," (ws +:+ t)) (Py.split "," t).
Proof.
  induction ws as [|c ws IH]; intros H.
  - change (EmptyString +:+ t) with t.
    induction (Py.split "," t); constructor; auto. now exists EmptyString.
  - simpl in H. apply andb_prop in H as [Hc Hws].
    change (String c ws +:+ t) with (String c (ws +:+ t)). simpl.
    destruct (Ascii.eqb_spec c ","); [subst c; discriminate|].
    specialize (IH Hws). pose proof (split_not_nil "," t) as Hne.
    inversion IH as [|p q ps qs (w & Hw & ->) Hrest Hp Hq]; [congruence|].
    constructor; [|exact Hrest]. exists (String c w). simpl. now rewrite Hc, Hw.
Qed.

Lemma split_trailing (t ws : string) :
  all_isspace ws = true ->
  Forall2 (fun p q => exists w, all_isspace w = true /\ p = q +:+ w)
    (Py.split "," (t +:+ ws)) (Py.split "," t).
Proof.
  intros H. induction t as [|c t IH].
  - change (EmptyString +:+ ws) with ws.
    rewrite (split_no_sep _ _ (space_no_comma _ H)). constructor; [|constructor].
    now exists ws.
  - change (String c t +:+ ws) with (String c (t +:+ ws)). simpl.
    destruct (Ascii.eqb c ",").
    + constructor; [now exists EmptyString|exact IH].
    + inversion IH as [|p q ps qs (w & Hw & ->) Hrest Hp Hq].
      * exfalso. symmetry in H1. now apply split_not_nil in H1.
      * constructor; [|exact Hrest]. now exists w.
Qed.

Lemma parse_parts_strip_ext (ps qs : list string) (acc : list Z) :
  Forall2 (fun p q => Py.strip p = Py.strip q) ps qs ->
  parse_parts ps acc = parse_parts qs acc.
Proof.
  intros H. revert acc. induction H as [|p q ps qs Hpq _ IH]; intros acc; simpl; [reflexivity|].
  unfold parse_part. rewrite Hpq.
  destruct (Py.is_empty (Py.strip q)); simpl; [apply IH|].
  destruct (parse_token acc (Py.strip q)); simpl; auto.
Qed.

(** X4: white space before and after a spec changes nothing, so that the
    tokens between commas may be surrounded by blanks. *)
Theorem spaces_around_tokens_ignored (ws1 ws2 a t b : string) :
  all_isspace ws1 = true ->
  all_isspace ws2 = true ->
  parse_page_spec (ws1 +:+ t +:+ ws2) = parse_page_spec t
  /\ parse_page_spec (a +:+ String "," ((ws1 +:+ t +:+ ws2) +:+ String "," b))
     = parse_page_spec (a +:+ String "," (t +:+ String "," b)).
Proof.
  intros H1 H2.
  assert (Hmid : parse_page_spec (ws1 +:+ t +:+ ws2) = parse_page_spec t).
  { rewrite !parse_page_spec_parts.
    transitivity (parse_parts (Py.split "," (t +:+ ws2)) []).
    - apply parse_parts_strip_ext.
      eapply List.Forall2_impl; [|apply (split_leading ws1 (t +:+ ws2) H1)].
      intros p q (w & Hw & ->). now apply strip_leading.
    - apply parse_parts_strip_ext.
      eapply List.Forall2_impl; [|apply (split_trailing t ws2 H2)].
      intros p q (w & Hw & ->). now apply strip_trailing. }
  split; [exact Hmid|].
  rewrite (parse_page_spec_concat a), (parse_page_spec_concat (ws1 +:+ t +:+ ws2)).
  rewrite (parse_page_spec_concat a), (parse_page_spec_concat t).
  now rewrite Hmid.
Qed.

Lemma spaces_around_tokens_ignored_witness :
  parse_page_spec (" " +:+ "3-5" +:+ "  ") = parse_page_spec "3-5"
  /\ parse_page_spec ("1" +:+ String "," ((" " +:+ "3-5" +:+ "  ") +:+ String "," "9"))
     = parse_page_spec ("1" +:+ String "," ("3-5" +:+ String "," "9")).
Proof.
  exact (spaces_around_tokens_ignored " " "  " "1" "3-5" "9" eq_refl eq_refl).
Defined.

Lemma all_isspace_strip (ws : string) :
  all_isspace ws = true -> Py.strip ws = EmptyString.
Proof.
  intros H. unfold Py.strip. now rewrite (lstrip_all_space _ H).
Qed.

(** C8: the spec is split on commas and each piece is trimmed on both
    sides: white space before and after a spec, and around a token between
    two commas, changes nothing; a piece of white space only is dropped, as
    is the empty piece of a stray or trailing comma; the result is that of
    the trimmed, non-empty tokens in order; [1,,3] gives 1, 3 and the empty
    string gives the empty list. *)
Theorem blank_pieces_are_dropped :
  (forall ws1 t ws2 : string,
      all_isspace ws1 = true -> all_isspace ws2 = true ->
      parse_page_spec (ws1 +:+ t +:+ ws2) = parse_page_spec t)
  /\ (forall a ws1 t ws2 b : string,
         all_isspace ws1 = true -> all_isspace ws2 = true ->
         parse_page_spec (a +:+ String "," ((ws1 +:+ t +:+ ws2) +:+ String "," b))
         = parse_page_spec (a +:+ String "," (t +:+ String "," b)))
  /\ (forall a blank b : string,
         all_isspace blank = true ->
         parse_page_spec (a +:+ String "," (blank +:+ String "," b))
         = parse_page_spec (a +:+ String "," b))
  /\ (forall a : string, parse_page_spec (a +:+ ",") = parse_page_spec a)
  /\ (forall spec : string, parse_page_spec spec = parse_tokens (tokens spec) [])
  /\ parse_page_spec "" = Ok []
  /\ parse_page_spec "1,,3" = Ok [1; 3]
  /\ parse_page_spec " 1 , ,3 ,," = Ok [1; 3].
Proof.
  assert (Htrim : forall ws1 t ws2 : string,
             all_isspace ws1 = true -> all_isspace ws2 = true ->
             parse_page_spec (ws1 +:+ t +:+ ws2) = parse_page_spec t).
  { intros ws1 t ws2 H1 H2. rewrite !parse_page_spec_parts.
    transitivity (parse_parts (Py.split "," (t +:+ ws2)) []).
    - apply parse_parts_strip_ext.
      eapply List.Forall2_impl; [|apply (split_leading ws1 (t +:+ ws2) H1)].
      intros p q (w & Hw & ->). now apply strip_leading.
    - apply parse_parts_strip_ext.
      eapply List.Forall2_impl; [|apply (split_trailing t ws2 H2)].
      intros p q (w & Hw & ->). now apply strip_trailing. }
  split; [exact Htrim|].
  split.
  { intros a ws1 t ws2 b H1 H2.
    rewrite (parse_page_spec_concat a), (parse_page_spec_concat (ws1 +:+ t +:+ ws2)).
    rewrite (parse_page_spec_concat a), (parse_page_spec_concat t).
    now rewrite (Htrim ws1 t ws2 H1 H2). }
  split.
  { intros a blank b Hb. pose proof (all_isspace_strip _ Hb) as Hs.
    rewrite !parse_page_spec_comma.
    destruct (parse_parts (Py.split "," a) []) as [pages|e]; simpl; [|reflexivity].
    rewrite split_app, (split_no_sep _ _ (blank_no_comma _ Hs)). simpl.
    now rewrite (parse_part_blank _ _ Hs). }
  split.
  { intros a. rewrite parse_page_spec_comma. simpl.
    unfold parse_page_spec. destruct a as [|c a]; [reflexivity|]. simpl Py.is_empty.
    cbv iota. destruct (parse_parts _ _); reflexivity. }
  split; [|repeat split; reflexivity].
  intros spec. unfold parse_page_spec, tokens.
  destruct (Py.is_empty spec) eqn:He.
  - now rewrite (is_empty_split _ He).
  - apply parse_parts_tokens.
Qed.

Lemma blank_pieces_are_dropped_witness :
  parse_page_spec (" " +:+ "7-4" +:+ "  ") = parse_page_spec "7-4"
  /\ parse_page_spec ("1" +:+ String "," (" " +:+ String "," "3"))
     = parse_page_spec ("1" +:+ String "," "3").
Proof.
  split.
  - apply (proj1 blank_pieces_are_dropped " " "7-4" "  "); reflexivity.
  - apply (proj1 (proj2 (proj2 blank_pieces_are_dropped)) "1" " " "3"). reflexivity.
Defined.

(** * Further properties of [extract_pages_from_pdf] *)

Section ExtractorMore.

Context {L : PdfLibrary}.

(** The heap the building part of the call ends in. *)
Lemma build_run_world (rd : reader) (pages : list page) (pages_1based : list Z) (w : world) :
  reader_pages rd = Ok pages ->
  Forall (fun p => 1 <= p <= Z.of_nat (length pages)) pages_1based ->
  let d := WriterState (select_pages pages pages_1based) output_info in
  let lw := fresh (dom (heap w)) in
  let h := <[lw := Writer d]> (heap w) in
  let out := serialize d (ambient w) in
  bind PdfWriter (fun writer =>
    bind (copy_pages writer rd pages_1based) (fun _ =>
      bind (add_metadata writer extracted_metadata) (fun _ =>
        bind BytesIO_new (fun out_buf =>
          bind (writer_write writer out_buf) (fun _ =>
            bind (seek out_buf 0) (fun _ => read out_buf)))))) w
  = (Ok out, set_heap w (<[fresh (dom h) := BytesIO out (length out)]> h)).
Proof.
  intros Hr Hall d lw h3 b.
  set (h1 := <[lw := Writer (WriterState [] new_info)]> (heap w)).
  set (h2 := <[lw := Writer (WriterState (select_pages pages pages_1based) new_info)]> (heap w)).
  set (lb := fresh (dom h3)).
  assert (Hlb : h3 !! lb = None) by apply fresh_lookup.
  assert (Hne : lb <> lw).
  { intros E. rewrite E in Hlb. unfold h3 in Hlb. now rewrite lookup_insert_eq in Hlb. }
  unfold bind at 1, PdfWriter, alloc. fold lw. fold h1.
  unfold bind at 1.
  rewrite (copy_pages_run lw rd pages pages_1based _ (WriterState [] new_info) Hr Hall)
    by (simpl; apply lookup_insert_eq).
  simpl. unfold h1. rewrite insert_insert_eq. fold h2.
  unfold bind at 1, add_metadata. simpl. unfold h2 at 1. rewrite lookup_insert_eq.
  simpl. unfold h2. rewrite insert_insert_eq. fold output_info. fold d. fold h3.
  unfold bind at 1, BytesIO_new, alloc. simpl. fold lb.
  unfold bind at 1, writer_write. simpl.
  rewrite lookup_insert_ne by exact Hne. unfold h3 at 1. rewrite lookup_insert_eq.
  rewrite lookup_insert_eq. simpl. rewrite insert_insert_eq.
  rewrite stream_write_empty. fold b.
  unfold bind at 1, seek. simpl. rewrite lookup_insert_eq. rewrite insert_insert_eq.
  unfold read. simpl. rewrite lookup_insert_eq. rewrite insert_insert_eq.
  reflexivity.
Qed.

(** The whole call as one equation. *)
Lemma extract_eq (pdf_bytes : list byte) (pages_1based : list Z) (w : world) :
  extract_pages_from_pdf pdf_bytes pages_1based w
  = match output_document pdf_bytes pages_1based with
    | Raise e => (Raise e, w)
    | Ok d =>
        let h := <[fresh (dom (heap w)) := Writer d]> (heap w) in
        let out := serialize d (ambient w) in
        (Ok out, set_heap w (<[fresh (dom h) := BytesIO out (length out)]> h))
    end.
Proof.
  unfold output_document, extract_pages_from_pdf.
  rewrite bind_lift.
  destruct (PdfReader pdf_bytes) as [rd|e]; simpl; [|reflexivity].
  unfold bind at 1.
  assert (Hopen :
    forall rd0 : reader,
      bind (lift (reader_pages rd0)) (fun pages =>
        bind (lift (check_pages pages_1based (Z.of_nat (length pages)))) (fun _ =>
          bind PdfWriter (fun writer =>
            bind (copy_pages writer rd0 pages_1based) (fun _ =>
              bind (add_metadata writer extracted_metadata) (fun _ =>
                bind BytesIO_new (fun out_buf =>
                  bind (writer_write writer out_buf) (fun _ =>
                    bind (seek out_buf 0) (fun _ => read out_buf)))))))) w
      = match
          (let? pages := reader_pages rd0 in
           let? _ := check_pages pages_1based (Z.of_nat (length pages)) in
           Ok (WriterState (select_pages pages pages_1based) output_info))
        with
        | Raise e => (Raise e, w)
        | Ok d =>
            let h := <[fresh (dom (heap w)) := Writer d]> (heap w) in
            let out := serialize d (ambient w) in
            (Ok out, set_heap w (<[fresh (dom h) := BytesIO out (length out)]> h))
        end).
  { intros rd0. rewrite bind_lift.
    destruct (reader_pages rd0) as [pages|e] eqn:Hr; simpl; [|reflexivity].
    rewrite bind_lift.
    destruct (check_pages pages_1based (Z.of_nat (length pages))) as [[]|e] eqn:Hc;
      simpl; [|reflexivity].
    apply check_pages_ok in Hc.
    exact (build_run_world rd0 pages pages_1based w Hr Hc). }
  destruct (is_encrypted rd).
  - destruct (decrypt rd "") as [[pt rd']|e]; simpl; [apply Hopen|reflexivity].
  - simpl. apply Hopen.
Qed.

Lemma lookup_after_extract (h : gmap nat object) (d : writer_state page) (out : list byte) :
  let h' := <[fresh (dom h) := Writer d]> h in
  (<[fresh (dom h') := BytesIO out (length out)]> h') !! fresh (dom h) = Some (Writer d)
  /\ fresh (dom h') <> fresh (dom h)
  /\ h !! fresh (dom h) = None
  /\ h !! fresh (dom h') = None.
Proof.
  intros h'.
  assert (H1 : h !! fresh (dom h) = None) by apply fresh_lookup.
  assert (H2 : h' !! fresh (dom h') = None) by apply fresh_lookup.
  assert (Hne : fresh (dom h') <> fresh (dom h)).
  { intros E. rewrite E in H2. unfold h' in H2. now rewrite lookup_insert_eq in H2. }
  split; [|split; [exact Hne|split; [exact H1|]]].
  - rewrite lookup_insert_ne by exact Hne. apply lookup_insert_eq.
  - unfold h' in H2. rewrite lookup_insert_ne in H2; [exact H2|].
    intros E. apply Hne. symmetry. exact E.
Qed.

(** The document built is the one of the specification's algorithm, when
    the call returns, and none when it raises. *)
Lemma built_document_eq (pdf_bytes : list byte) (pages_1based : list Z) (w : world) :
  built_document pdf_bytes pages_1based w
  = match output_document pdf_bytes pages_1based with
    | Ok d => Some d
    | Raise _ => None
    end.
Proof.
  unfold built_document. rewrite extract_eq.
  destruct (output_document pdf_bytes pages_1based) as [d|e]; simpl.
  - now rewrite (proj1 (lookup_after_extract (heap w) d (serialize d (ambient w)))).
  - now rewrite fresh_lookup.
Qed.

(** What [output_document] raises, each case with the reader it comes
    from. *)
Lemma output_document_cases (pdf_bytes : list byte) (pages_1based : list Z) :
  (exists e, PdfReader pdf_bytes = Raise e /\ output_document pdf_bytes pages_1based = Raise e)
  \/ (exists rd e, PdfReader pdf_bytes = Ok rd /\ is_encrypted rd = true
                   /\ decrypt rd "" = Raise e
                   /\ output_document pdf_bytes pages_1based
                      = Raise (Exc RuntimeError
                                 ("PDF is encrypted and cannot be opened without a password: "
                                    +:+ exc_str e)))
  \/ (exists rd e, opened pdf_bytes rd /\ reader_pages rd = Raise e
                   /\ output_document pdf_bytes pages_1based = Raise e)
  \/ (exists rd pages, opened pdf_bytes rd /\ reader_pages rd = Ok pages
        /\ output_document pdf_bytes pages_1based
           = let? _ := check_pages pages_1based (Z.of_nat (length pages)) in
             Ok (WriterState (select_pages pages pages_1based) output_info)).
Proof.
  unfold output_document, opened.
  destruct (PdfReader pdf_bytes) as [rd|e] eqn:Hrd; simpl; [|left; eauto].
  right.
  assert (Hopen : forall rd0,
    (is_encrypted rd = false /\ rd0 = rd
     \/ is_encrypted rd = true /\ exists pt, decrypt rd "" = Ok (pt, rd0)) ->
    (exists rd1 e,
       (exists rd2, Ok rd = Ok rd2
          /\ (is_encrypted rd2 = false /\ rd1 = rd2
              \/ is_encrypted rd2 = true /\ exists pt, decrypt rd2 "" = Ok (pt, rd1)))
       /\ reader_pages rd1 = Raise e
       /\ (let? pages := reader_pages rd0 in
           let? _ := check_pages pages_1based (Z.of_nat (length pages)) in
           Ok (WriterState (select_pages pages pages_1based) output_info)) = Raise e)
    \/ (exists rd1 pages,
          (exists rd2, Ok rd = Ok rd2
             /\ (is_encrypted rd2 = false /\ rd1 = rd2
                 \/ is_encrypted rd2 = true /\ exists pt, decrypt rd2 "" = Ok (pt, rd1)))
          /\ reader_pages rd1 = Ok pages
          /\ (let? pages := reader_pages rd0 in
              let? _ := check_pages pages_1based (Z.of_nat (length pages)) in
              Ok (WriterState (select_pages pages pages_1based) output_info))
             = let? _ := check_pages pages_1based (Z.of_nat (length pages)) in
               Ok (WriterState (select_pages pages pages_1based) output_info))).
  { intros rd0 Hfrom. destruct (reader_pages rd0) as [pages|e] eqn:Hp; simpl.
    - right. exists rd0, pages. split; [exists rd; auto|]. auto.
    - left. exists rd0, e. split; [exists rd; auto|]. auto. }
  destruct (is_encrypted rd) eqn:He.
  - destruct (decrypt rd "") as [[pt rd']|e] eqn:Hd; simpl.
    + right. apply Hopen. right. eauto.
    + left. exists rd, e. auto.
  - simpl. right. apply Hopen. left. auto.
Qed.

(** X5: whatever the call raises, the heap is as before the call (no writer,
    no buffer), and the exception is one of four: what [PdfReader] raised for
    these bytes; the [RuntimeError] around what [decrypt] raised on the
    reader of these bytes; what reading the pages of the opened reader
    raised; or the out-of-range [ValueError] that names the first page of the
    list outside 1 and the page count of the opened reader.  The copying
    loop raises nothing: [reader.pages[p - 1]] is never reached with an
    index below 0 or beyond the last page. *)
Theorem extract_failure_is_clean
    (pdf_bytes : list byte) (pages_1based : list Z) (w w' : world) (e : exception) :
  extract_pages_from_pdf pdf_bytes pages_1based w = (Raise e, w') ->
  w' = w
  /\ (PdfReader pdf_bytes = Raise e
      \/ (exists rd e0, PdfReader pdf_bytes = Ok rd /\ is_encrypted rd = true
                        /\ decrypt rd "" = Raise e0
                        /\ e = Exc RuntimeError
                                 ("PDF is encrypted and cannot be opened without a password: "
                                    +:+ exc_str e0))
      \/ (exists rd, opened pdf_bytes rd /\ reader_pages rd = Raise e)
      \/ (exists rd pages p,
            opened pdf_bytes rd /\ reader_pages rd = Ok pages
            /\ List.find (bad_page (Z.of_nat (length pages))) pages_1based = Some p
            /\ In p pages_1based
            /\ (p < 1 \/ Z.of_nat (length pages) < p)
            /\ e = out_of_range p (Z.of_nat (length pages)))).
Proof.
  rewrite extract_eq.
  destruct (output_document_cases pdf_bytes pages_1based)
    as [(e0 & Hr & ->) | [(rd & e0 & Hr & He & Hd & ->)
        | [(rd & e0 & Ho & Hp & ->) | (rd & pages & Ho & Hp & ->)]]].
  - intros [= <- <-]. auto.
  - intros [= <- <-]. split; [reflexivity|]. right. left. eauto 10.
  - intros [= <- <-]. split; [reflexivity|]. right. right. left. eauto.
  - rewrite check_pages_find.
    pose proof (find_bad_page pages_1based (Z.of_nat (length pages))) as Hf.
    destruct (List.find _ _) as [p|] eqn:Hfind; simpl; [|discriminate].
    intros [= <- <-]. split; [reflexivity|]. right. right. right.
    destruct Hf as [Hin Hbad]. exists rd, pages, p. auto 10.
Qed.

(** X6: when the call returns, the heap has two objects more, at addresses
    that were free: the writer, holding the document whose serialisation is
    returned, and the buffer, holding the returned bytes with its position
    at their end.  Every object that was in the heap is as it was. *)
Theorem extract_success_heap
    (pdf_bytes : list byte) (pages_1based : list Z) (w w' : world) (out : list byte) :
  extract_pages_from_pdf pdf_bytes pages_1based w = (Ok out, w') ->
  exists (d : writer_state page) (writer out_buf : nat),
    heap w !! writer = None /\ heap w !! out_buf = None /\ writer <> out_buf
    /\ heap w' = <[out_buf := BytesIO out (length out)]> (<[writer := Writer d]> (heap w))
    /\ out = serialize d (ambient w)
    /\ ambient w' = ambient w
    /\ (forall l o, heap w !! l = Some o -> heap w' !! l = Some o).
Proof.
  rewrite extract_eq.
  destruct (output_document pdf_bytes pages_1based) as [d|e]; [|discriminate].
  simpl. intros [= <- <-].
  destruct (lookup_after_extract (heap w) d (serialize d (ambient w)))
    as (_ & Hne & H1 & H2).
  exists d, (fresh (dom (heap w))),
    (fresh (dom (<[fresh (dom (heap w)) := Writer d]> (heap w)))).
  repeat split; auto.
  intros l o Hl. simpl.
  rewrite !lookup_insert_ne; [exact Hl| |]; intros <-; congruence.
Qed.

End ExtractorMore.

Lemma extract_failure_is_clean_witness :
  empty_world toy = empty_world toy
  /\ (PdfReader (PdfLibrary := toy) ["P"; "A"; "B"]%byte
      = Raise (Exc ValueError "Page 5 is out of range (1..2).")
      \/ (exists rd e0, PdfReader (PdfLibrary := toy) ["P"; "A"; "B"]%byte = Ok rd
                        /\ is_encrypted rd = true
                        /\ decrypt rd "" = Raise e0
                        /\ Exc ValueError "Page 5 is out of range (1..2)."
                           = Exc RuntimeError
                               ("PDF is encrypted and cannot be opened without a password: "
                                  +:+ exc_str e0))
      \/ (exists rd, opened (L := toy) ["P"; "A"; "B"]%byte rd
                     /\ reader_pages (PdfLibrary := toy) rd
                        = Raise (Exc ValueError "Page 5 is out of range (1..2)."))
      \/ (exists rd pages p,
            opened (L := toy) ["P"; "A"; "B"]%byte rd
            /\ reader_pages (PdfLibrary := toy) rd = Ok pages
            /\ List.find (bad_page (Z.of_nat (length pages))) [2; 5] = Some p
            /\ In p [2; 5]
            /\ (p < 1 \/ Z.of_nat (length pages) < p)
            /\ Exc ValueError "Page 5 is out of range (1..2)."
               = out_of_range p (Z.of_nat (length pages)))).
Proof.
  exact (extract_failure_is_clean (L := toy) ["P"; "A"; "B"]%byte [2; 5]
           (empty_world toy) (empty_world toy)
           (Exc ValueError "Page 5 is out of range (1..2).") eq_refl).
Defined.

Lemma extract_success_heap_witness :
  let w := empty_world toy in
  let w' := snd (extract_pages_from_pdf (L := toy) ["P"; "A"; "B"]%byte [2] w) in
  exists (d : writer_state (@page toy)) (writer out_buf : nat),
    heap w !! writer = None /\ heap w !! out_buf = None /\ writer <> out_buf
    /\ heap w' = <[out_buf := BytesIO ["B"%byte] 1]> (<[writer := Writer d]> (heap w))
    /\ ["B"%byte] = serialize (PdfLibrary := toy) d (ambient w)
    /\ ambient w' = ambient w
    /\ (forall l o, heap w !! l = Some o -> heap w' !! l = Some o).
Proof.
  exact (extract_success_heap (L := toy) ["P"; "A"; "B"]%byte [2] (empty_world toy)
           (snd (extract_pages_from_pdf (L := toy) ["P"; "A"; "B"]%byte [2] (empty_world toy)))
           ["B"%byte] eq_refl).
Defined.

Section ExtractorDocument.

Context {L : PdfLibrary}.

Lemma select_pages_length {A : Type} (pages : list A) (pages_1based : list Z) :
  Forall (fun p => 1 <= p <= Z.of_nat (length pages)) pages_1based ->
  length (select_pages pages pages_1based) = length pages_1based.
Proof.
  intros H. apply select_pages_spec in H.
  induction H; simpl; auto.
Qed.

Lemma select_pages_app {A : Type} (pages : list A) (l1 l2 : list Z) :
  select_pages pages (l1 ++ l2) = select_pages pages l1 ++ select_pages pages l2.
Proof.
  unfold select_pages. apply omap_app.
Qed.

Lemma check_pages_app (l1 l2 : list Z) (total_pages : Z) :
  check_pages (l1 ++ l2) total_pages
  = let? _ := check_pages l1 total_pages in check_pages l2 total_pages.
Proof.
  induction l1 as [|p l1 IH]; simpl; [reflexivity|].
  destruct ((p <? 1) || (total_pages <? p)); [reflexivity|exact IH].
Qed.

(** The document is built from one reading of the source, whatever the
    page list. *)
Lemma output_document_source (pdf_bytes : list byte) (pages_1based : list Z)
    (d : writer_state page) :
  output_document pdf_bytes pages_1based = Ok d ->
  exists pages,
    (forall l, output_document pdf_bytes l
               = let? _ := check_pages l (Z.of_nat (length pages)) in
                 Ok (WriterState (select_pages pages l) output_info))
    /\ Forall (fun p => 1 <= p <= Z.of_nat (length pages)) pages_1based
    /\ d = WriterState (select_pages pages pages_1based) output_info.
Proof.
  unfold output_document.
  destruct (PdfReader pdf_bytes) as [rd|e]; simpl; [|discriminate].
  destruct (if is_encrypted rd then _ else _) as [rd'|e]; simpl; [|discriminate].
  destruct (reader_pages rd') as [pages|e]; simpl; [|discriminate].
  destruct (check_pages pages_1based (Z.of_nat (length pages))) as [[]|e] eqn:Hc;
    simpl; [|discriminate].
  intros [= <-]. exists pages. split; [reflexivity|]. split; [|reflexivity].
  now apply check_pages_ok.
Qed.

(** X7: the document built has as many pages as the page list has entries,
    which is the number the page then shows in its success message. *)
Theorem built_document_page_count
    (pdf_bytes : list byte) (pages_1based : list Z) (w : world) (out : list byte) :
  fst (extract_pages_from_pdf pdf_bytes pages_1based w) = Ok out ->
  exists d,
    built_document pdf_bytes pages_1based w = Some d
    /\ out = serialize d (ambient w)
    /\ length (w_pages d) = length pages_1based.
Proof.
  rewrite built_document_eq, extract_eq.
  destruct (output_document pdf_bytes pages_1based) as [d|e] eqn:Hd; [|discriminate].
  simpl. intros [= <-]. exists d. split; [reflexivity|]. split; [reflexivity|].
  destruct (output_document_source _ _ _ Hd) as (pages & _ & Hall & ->). simpl.
  now apply select_pages_length.
Qed.

(** X8: the document built carries the title [Extracted Pages] and the
    producer [pypdf], whatever a new writer starts with, and keeps every
    other entry a new writer starts with. *)
Theorem built_document_metadata
    (pdf_bytes : list byte) (pages_1based : list Z) (w : world) (d : writer_state page) :
  built_document pdf_bytes pages_1based w = Some d ->
  w_info d !! "/Title"%string = Some "Extracted Pages"%string
  /\ w_info d !! "/Producer"%string = Some "pypdf"%string
  /\ (forall k : string,
         k <> "/Title"%string -> k <> "/Producer"%string ->
         w_info d !! k = new_info !! k).
Proof.
  rewrite built_document_eq.
  destruct (output_document pdf_bytes pages_1based) as [d'|e] eqn:Hd; [|discriminate].
  intros [= <-]. destruct (output_document_source _ _ _ Hd) as (pages & _ & _ & ->).
  simpl. unfold output_info, extracted_metadata.
  split; [|split].
  - apply lookup_union_Some_l. apply lookup_insert_eq.
  - apply lookup_union_Some_l. rewrite lookup_insert_ne by discriminate.
    apply lookup_insert_eq.
  - intros k H1 H2. apply lookup_union_r.
    rewrite !lookup_insert_ne by congruence. apply lookup_empty.
Qed.

(** X9: page lists compose: when the call returns for [l1] and for [l2], it
    returns for [l1 ++ l2], and the document it builds has the pages built
    for [l1] followed by the pages built for [l2]. *)
Theorem built_document_app
    (pdf_bytes : list byte) (l1 l2 : list Z) (w : world) (d1 d2 : writer_state page) :
  built_document pdf_bytes l1 w = Some d1 ->
  built_document pdf_bytes l2 w = Some d2 ->
  built_document pdf_bytes (l1 ++ l2) w
  = Some (WriterState (w_pages d1 ++ w_pages d2) (w_info d1))
  /\ fst (extract_pages_from_pdf pdf_bytes (l1 ++ l2) w)
     = Ok (serialize (WriterState (w_pages d1 ++ w_pages d2) (w_info d1)) (ambient w)).
Proof.
  rewrite !built_document_eq, extract_eq.
  destruct (output_document pdf_bytes l1) as [d1'|e] eqn:H1; [|discriminate].
  destruct (output_document pdf_bytes l2) as [d2'|e] eqn:H2; [|discriminate].
  intros [= <-] [= <-].
  destruct (output_document_source _ _ _ H1) as (pages & Hall & Hl1 & ->).
  rewrite (Hall l2) in H2. rewrite (Hall (l1 ++ l2)), check_pages_app.
  apply check_pages_ok in Hl1. rewrite Hl1. simpl.
  destruct (check_pages l2 (Z.of_nat (length pages))) as [[]|e]; [|discriminate].
  simpl in *. injection H2 as <-. simpl. now rewrite select_pages_app.
Qed.

End ExtractorDocument.

Lemma built_document_page_count_witness :
  exists d,
    built_document (L := toy) ["P"; "A"; "B"]%byte [2; 2; 1] (empty_world toy) = Some d
    /\ ["B"; "B"; "A"]%byte = serialize (PdfLibrary := toy) d (ambient (empty_world toy))
    /\ length (w_pages d) = length [2; 2; 1].
Proof.
  exact (built_document_page_count (L := toy) ["P"; "A"; "B"]%byte [2; 2; 1]
           (empty_world toy) ["B"; "B"; "A"]%byte eq_refl).
Defined.

Lemma built_document_metadata_witness :
  let d := WriterState ["B"%byte] (output_info (L := toy)) in
  w_info d !! "/Title"%string = Some "Extracted Pages"%string
  /\ w_info d !! "/Producer"%string = Some "pypdf"%string
  /\ (forall k : string,
         k <> "/Title"%string -> k <> "/Producer"%string ->
         w_info d !! k = new_info (PdfLibrary := toy) !! k).
Proof.
  refine (built_document_metadata (L := toy) ["P"; "A"; "B"]%byte [2]
            (empty_world toy) (WriterState ["B"%byte] (output_info (L := toy))) _).
  vm_compute. reflexivity.
Defined.

Lemma built_document_app_witness :
  built_document (L := toy) ["P"; "A"; "B"]%byte ([2] ++ [1; 2]) (empty_world toy)
  = Some (WriterState (["B"] ++ ["A"; "B"])%byte (output_info (L := toy)))
  /\ fst (extract_pages_from_pdf (L := toy) ["P"; "A"; "B"]%byte ([2] ++ [1; 2])
            (empty_world toy))
     = Ok (serialize (PdfLibrary := toy)
             (WriterState (["B"] ++ ["A"; "B"])%byte (output_info (L := toy)))
             (ambient (empty_world toy))).
Proof.
  refine (built_document_app (L := toy) ["P"; "A"; "B"]%byte [2] [1; 2] (empty_world toy)
            (WriterState ["B"%byte] (output_info (L := toy)))
            (WriterState ["A"; "B"]%byte (output_info (L := toy))) _ _);
    vm_compute; reflexivity.
Defined.

(** * The range mode and the page's own check *)

Lemma range_selection_inclusive (start end_ : Z) :
  range_selection start end_ = Ok (inclusive_seq start end_).
Proof.
  pose proof (range_inclusive start end_) as H. simpl in H.
  unfold range_selection. destruct (start <=? end_); [exact H|].
  replace (end_ - 1) with (end_ + -1) by lia. exact H.
Qed.

Lemma rstrip_app_keep (s t : string) :
  t <> EmptyString -> Py.rstrip t = t -> Py.rstrip (s +:+ t) = s +:+ t.
Proof.
  intros Hne Ht. induction s as [|c s IH].
  - exact Ht.
  - change (String c s +:+ t) with (String c (s +:+ t)). simpl. rewrite IH.
    destruct (s +:+ t) eqn:E; [|reflexivity].
    destruct s; [change (EmptyString +:+ t) with t in E; congruence|discriminate].
Qed.

Lemma contains_app_no (c : ascii) (s t : string) :
  Py.contains c s = false -> Py.contains c t = false -> Py.contains c (s +:+ t) = false.
Proof.
  intros Hs Ht. induction s as [|x s IH]; [exact Ht|].
  change (String x s +:+ t) with (String x (s +:+ t)). simpl in *.
  apply orb_false_elim in Hs as [H1 H2]. now rewrite H1, (IH H2).
Qed.

(** X16: the two selection modes agree: for numbers that are not negative
    the spec [start-end], typed with their numerals, selects the list the
    range mode builds from [start] and [end], which is the inclusive
    sequence from [start] to [end]. *)
Theorem spec_mode_agrees_with_range_mode (s e : Z) :
  0 <= s -> 0 <= e ->
  parse_page_spec (Py.str s +:+ String "-" (Py.str e)) = range_selection s e
  /\ range_selection s e = Ok (inclusive_seq s e).
Proof.
  intros Hs He. split; [|apply range_selection_inclusive].
  rewrite range_selection_inclusive.
  destruct (str_nonneg_digits s Hs) as [Hds Hns].
  destruct (str_nonneg_digits e He) as [Hde Hne].
  assert (Hcs : Py.contains "," (Py.str s +:+ String "-" (Py.str e)) = false).
  { apply contains_app_no; [now apply digits_no_char|]. simpl.
    now apply digits_no_char. }
  rewrite parse_page_spec_parts, (split_no_sep _ _ Hcs). simpl.
  assert (Hstrip : Py.strip (Py.str s +:+ String "-" (Py.str e))
                   = Py.str s +:+ String "-" (Py.str e)).
  { unfold Py.strip.
    assert (Hl : Py.lstrip (Py.str s +:+ String "-" (Py.str e))
                 = Py.str s +:+ String "-" (Py.str e)).
    { rewrite lstrip_app, (digits_lstrip _ Hds).
      destruct (Py.str s); [congruence|reflexivity]. }
    rewrite Hl. apply rstrip_app_keep; [discriminate|].
    simpl. rewrite (digits_rstrip _ Hde). destruct (Py.str e); [congruence|reflexivity]. }
  unfold parse_part. rewrite Hstrip.
  destruct (Py.is_empty _) eqn:Hemp; [destruct (Py.str s); discriminate|].
  unfold parse_token.
  rewrite contains_app, (split1_app _ _ _ (digits_no_char _ "-" Hds eq_refl)). simpl.
  rewrite (int_ok _ _ (parse_int_str s Hs)), (int_ok _ _ (parse_int_str e He)). simpl.
  pose proof (range_inclusive s e) as Hr. simpl in Hr. now rewrite Hr.
Qed.

Lemma spec_mode_agrees_with_range_mode_witness :
  parse_page_spec (Py.str 12 +:+ String "-" (Py.str 9)) = range_selection 12 9
  /\ range_selection 12 9 = Ok (inclusive_seq 12 9).
Proof.
  apply (spec_mode_agrees_with_range_mode 12 9); lia.
Defined.

Lemma bad_pages_empty_check (total_pages : Z) (selected_pages : list Z) :
  bad_pages total_pages selected_pages = [] -> check_pages selected_pages total_pages = Ok tt.
Proof.
  induction selected_pages as [|p l IH]; simpl; [reflexivity|].
  destruct ((p <? 1) || (total_pages <? p)); [discriminate|exact IH].
Qed.

(** X15: the page's list of out-of-range pages and the validation of the
    extractor agree: the list is empty exactly when the validation passes,
    it holds exactly the selected pages below 1 or above the page count, in
    the order of the selection, and its first page is the one the
    extractor's exception names. *)
Theorem bad_pages_agree_with_check (total_pages : Z) (selected_pages : list Z) :
  (bad_pages total_pages selected_pages = [] <-> check_pages selected_pages total_pages = Ok tt)
  /\ (forall p rest,
         bad_pages total_pages selected_pages = p :: rest ->
         check_pages selected_pages total_pages = Raise (out_of_range p total_pages))
  /\ (forall p, In p (bad_pages total_pages selected_pages)
                <-> In p selected_pages /\ (p < 1 \/ total_pages < p)).
Proof.
  split; [|split].
  - induction selected_pages as [|p l IH]; simpl; [tauto|].
    destruct ((p <? 1) || (total_pages <? p)); [|exact IH].
    split; discriminate.
  - induction selected_pages as [|q l IH]; simpl; [discriminate|].
    destruct ((q <? 1) || (total_pages <? q)); [|exact IH].
    now intros p rest [= -> _].
  - intros p. unfold bad_pages. rewrite filter_In, orb_true_iff, !Z.ltb_lt. tauto.
Qed.

(** ** What a range selects *)

Lemma skipn_nth_cons {A : Type} (l : list A) (k : nat) (x : A) :
  nth_error l k = Some x -> skipn k l = x :: skipn (S k) l.
Proof.
  revert k. induction l as [|a l IH]; intros [|k]; simpl; try discriminate.
  - now intros [= ->].
  - intros H. rewrite (IH k H). reflexivity.
Qed.

Lemma firstn_snoc_nth {A : Type} (l : list A) (n : nat) (x : A) :
  nth_error l n = Some x -> firstn (S n) l = firstn n l ++ [x].
Proof.
  revert n. induction l as [|a l IH]; intros [|n]; simpl; try discriminate.
  - now intros [= ->].
  - intros H. now rewrite <- (IH n H).
Qed.

Lemma nth_error_in_range {A : Type} (l : list A) (k : nat) :
  (k < length l)%nat -> exists x, nth_error l k = Some x.
Proof.
  intros H. destruct (nth_error l k) eqn:E; [eauto|].
  apply nth_error_None in E. lia.
Qed.

Lemma select_steps_up {A : Type} (pages : list A) (k n : nat) :
  (k + n <= length pages)%nat ->
  select_pages pages (steps (Z.of_nat k + 1) 1 n) = firstn n (skipn k pages).
Proof.
  revert k. induction n as [|n IH]; intros k Hk; [reflexivity|].
  destruct (nth_error_in_range pages k) as [x Hx]; [lia|].
  change (steps (Z.of_nat k + 1) 1 (S n))
    with ((Z.of_nat k + 1) :: steps (Z.of_nat k + 1 + 1) 1 n).
  rewrite (select_pages_cons _ _ _ x);
    [|lia|now replace (Z.to_nat (Z.of_nat k + 1 - 1)) with k by lia].
  replace (Z.of_nat k + 1 + 1) with (Z.of_nat (S k) + 1) by lia.
  rewrite IH by lia. rewrite (skipn_nth_cons _ _ _ Hx). reflexivity.
Qed.

Lemma select_steps_down {A : Type} (pages : list A) (k n : nat) :
  (k + n <= length pages)%nat ->
  select_pages pages (steps (Z.of_nat (k + n)) (-1) n) = rev (firstn n (skipn k pages)).
Proof.
  induction n as [|n IH]; intros Hk; [reflexivity|].
  destruct (nth_error_in_range pages (k + n)) as [x Hx]; [lia|].
  change (steps (Z.of_nat (k + S n)) (-1) (S n))
    with (Z.of_nat (k + S n) :: steps (Z.of_nat (k + S n) + -1) (-1) n).
  rewrite (select_pages_cons _ _ _ x);
    [|lia|now replace (Z.to_nat (Z.of_nat (k + S n) - 1)) with (k + n)%nat by lia].
  replace (Z.of_nat (k + S n) + -1) with (Z.of_nat (k + n)) by lia.
  rewrite IH by lia.
  rewrite (firstn_snoc_nth (skipn k pages) n x) by now rewrite nth_error_skipn.
  now rewrite rev_app_distr.
Qed.

Lemma inclusive_seq_in_range (s e total : Z) :
  1 <= s <= total -> 1 <= e <= total ->
  Forall (fun p => 1 <= p <= total) (inclusive_seq s e).
Proof.
  intros Hs He. apply List.Forall_forall. intros x. unfold inclusive_seq.
  destruct (Z.leb_spec s e); rewrite steps_in; intros (i & Hi & ->); lia.
Qed.

Section RangeExtraction.

Context {L : PdfLibrary}.

(** X10: with both ends within the document, what the range mode selects
    builds a slice of the source: the pages [start] to [end] in order when
    [start <= end], the pages [end] to [start] in reverse otherwise.  From 1
    to the page count the document has the pages of the source, from the
    page count to 1 the same pages reversed. *)
Theorem range_mode_builds_slice
    (pdf_bytes : list byte) (pages : list page) (s e : Z) (sel : list Z) (w : world) :
  readable pdf_bytes pages ->
  1 <= s <= Z.of_nat (length pages) ->
  1 <= e <= Z.of_nat (length pages) ->
  range_selection s e = Ok sel ->
  built_document pdf_bytes sel w
  = Some (WriterState
            (if s <=? e
             then firstn (Z.to_nat (e - s + 1)) (skipn (Z.to_nat (s - 1)) pages)
             else rev (firstn (Z.to_nat (s - e + 1)) (skipn (Z.to_nat (e - 1)) pages)))
            output_info)
  /\ (s = 1 -> e = Z.of_nat (length pages) ->
      built_document pdf_bytes sel w = Some (WriterState pages output_info))
  /\ (s = Z.of_nat (length pages) -> e = 1 ->
      built_document pdf_bytes sel w = Some (WriterState (rev pages) output_info)).
Proof.
  intros Hread Hs He. rewrite range_selection_inclusive. intros [= <-].
  assert (Hdoc : built_document pdf_bytes (inclusive_seq s e) w
                 = Some (WriterState (select_pages pages (inclusive_seq s e)) output_info)).
  { rewrite built_document_eq, (readable_output _ _ _ Hread).
    pose proof (inclusive_seq_in_range s e _ Hs He) as Hall.
    apply check_pages_ok in Hall. now rewrite Hall. }
  assert (Hsel : select_pages pages (inclusive_seq s e)
                 = if s <=? e
                   then firstn (Z.to_nat (e - s + 1)) (skipn (Z.to_nat (s - 1)) pages)
                   else rev (firstn (Z.to_nat (s - e + 1)) (skipn (Z.to_nat (e - 1)) pages))).
  { unfold inclusive_seq. destruct (Z.leb_spec s e).
    - replace s with (Z.of_nat (Z.to_nat (s - 1)) + 1) at 1 by lia.
      apply select_steps_up. lia.
    - replace s with (Z.of_nat (Z.to_nat (e - 1) + Z.to_nat (s - e + 1))) at 1 by lia.
      apply select_steps_down. lia. }
  rewrite Hdoc, Hsel. split; [reflexivity|]. split.
  - intros -> ->. destruct (Z.leb_spec 1 (Z.of_nat (length pages))); [|lia].
    replace (Z.to_nat (Z.of_nat (length pages) - 1 + 1)) with (length pages) by lia.
    simpl. now rewrite firstn_all.
  - intros -> ->. destruct (Z.leb_spec (Z.of_nat (length pages)) 1) as [Hle|Hgt].
    + assert (Hone : length pages = 1%nat) by lia.
      destruct pages as [|x [|y l]]; simpl in Hone; try lia. reflexivity.
    + replace (Z.to_nat (Z.of_nat (length pages) - 1 + 1)) with (length pages) by lia.
      simpl. now rewrite firstn_all.
Qed.

End RangeExtraction.

Lemma range_mode_builds_slice_witness :
  built_document (L := toy) ["P"; "A"; "B"; "C"; "D"]%byte [4; 3; 2] (empty_world toy)
  = Some (WriterState
            (if 4 <=? 2
             then firstn (Z.to_nat (2 - 4 + 1)) (skipn (Z.to_nat (4 - 1)) ["A"; "B"; "C"; "D"]%byte)
             else rev (firstn (Z.to_nat (4 - 2 + 1)) (skipn (Z.to_nat (2 - 1)) ["A"; "B"; "C"; "D"]%byte)))
            (output_info (L := toy))).
Proof.
  refine (proj1 (range_mode_builds_slice (L := toy) ["P"; "A"; "B"; "C"; "D"]%byte
                   ["A"; "B"; "C"; "D"]%byte 4 2 [4; 3; 2] (empty_world toy)
                   (toy_readable _) _ _ eq_refl)); simpl; lia.
Defined.

(** * The page *)

Section AppProperties.

Context {L : PdfLibrary}.

Lemma choose_pages_cases (i : widgets) :
  exists shown sel,
    choose_pages i = Ok (shown, sel)
    /\ (shown = [] \/ exists msg, shown = [st_error msg] /\ sel = []).
Proof.
  unfold choose_pages. destruct (mode i).
  - destruct (Py.is_empty (spec_input i)); [eauto 6|].
    destruct (parse_page_spec (spec_input i)); eauto 10.
  - rewrite range_selection_inclusive. simpl. eauto 6.
Qed.

Lemma build_block_eq (pdf_bytes : list byte) (sel : list Z) (w : world) :
  build_block pdf_bytes sel w
  = match extract_pages_from_pdf pdf_bytes sel w with
    | (Ok out_bytes, w') =>
        (Ok [st_success ("Built PDF with " +:+ Py.str (len sel) +:+ " page(s).");
             st_download_button "⬇️ Download result" out_bytes
               "extracted_pages.pdf" "application/pdf"], w')
    | (Raise e, w') => (Ok [st_error ("Failed to build PDF: " +:+ exc_str e)], w')
    end.
Proof. reflexivity. Qed.

(** What the block under [if selected_pages:] shows and does. *)
Lemma pages_block_cases (pdf_bytes : list byte) (total_pages : Z) (sel : list Z)
    (clicked : bool) (w : world) :
  (sel = [] /\ pages_block pdf_bytes total_pages sel clicked w
               = (Ok [st_warning "Pick some pages first."], w))
  \/ (sel <> [] /\ bad_pages total_pages sel <> []
      /\ pages_block pdf_bytes total_pages sel clicked w
         = (Ok [st_write "Selected pages (in order):" sel;
                st_error ("Out-of-range pages: " +:+ list_str (bad_pages total_pages sel)
                            +:+ " (valid range is 1.." +:+ Py.str total_pages +:+ ")")], w))
  \/ (sel <> [] /\ bad_pages total_pages sel = [] /\ clicked = false
      /\ pages_block pdf_bytes total_pages sel clicked w
         = (Ok [st_write "Selected pages (in order):" sel], w))
  \/ (sel <> [] /\ bad_pages total_pages sel = [] /\ clicked = true
      /\ exists e, extract_pages_from_pdf pdf_bytes sel w = (Raise e, w)
         /\ pages_block pdf_bytes total_pages sel clicked w
            = (Ok [st_write "Selected pages (in order):" sel;
                   st_error ("Failed to build PDF: " +:+ exc_str e)], w))
  \/ (sel <> [] /\ bad_pages total_pages sel = [] /\ clicked = true
      /\ exists out w', extract_pages_from_pdf pdf_bytes sel w = (Ok out, w')
         /\ pages_block pdf_bytes total_pages sel clicked w
            = (Ok [st_write "Selected pages (in order):" sel;
                   st_success ("Built PDF with " +:+ Py.str (len sel) +:+ " page(s).");
                   st_download_button "⬇️ Download result" out
                     "extracted_pages.pdf" "application/pdf"], w')).
Proof.
  destruct sel as [|p sel]; [left; auto|]. right.
  unfold pages_block.
  destruct (bad_pages total_pages (p :: sel)) as [|q bad] eqn:Hbad.
  - right. destruct clicked.
    + right. unfold bind. rewrite build_block_eq.
      destruct (extract_pages_from_pdf pdf_bytes (p :: sel) w) as [[out|e] w'] eqn:Hx.
      * right. repeat split; try discriminate. eauto.
      * left. repeat split; try discriminate.
        rewrite extract_eq in Hx.
        destruct (output_document pdf_bytes (p :: sel)); [discriminate|].
        injection Hx as <- <-. eauto.
    + left. repeat split; discriminate || reflexivity.
  - left. repeat split; discriminate || reflexivity.
Qed.

(** The run of the page on an uploaded file whose page count was read. *)
Lemma app_uploaded (i : widgets) (pdf_bytes : list byte) (total_pages : Z)
    (shown : list element) (sel : list Z) (w : world) :
  uploaded i = Some pdf_bytes ->
  peek_total_pages pdf_bytes = Ok total_pages ->
  choose_pages i = Ok (shown, sel) ->
  app i w
  = match pages_block pdf_bytes total_pages sel (button i) w with
    | (Ok shown', w') =>
        (Ok (page_head
               ++ [st_info ("Total pages detected: **" +:+ Py.str total_pages +:+ "**")]
               ++ shown ++ shown'), w')
    | (Raise e, w') => (Raise e, w')
    end.
Proof.
  intros Hu Hp Hc. unfold app. rewrite Hu, Hp, bind_lift, Hc.
  unfold bind, ret. destruct (pages_block _ _ _ _ _) as [[shown'|e] w']; reflexivity.
Qed.

(** X12: a download is offered only for bytes [extract_pages_from_pdf]
    returned in this run, for a file that was uploaded and whose page count
    could be read, a selection that is not empty and lies within 1 and that
    page count, and with the button pressed; its file name is
    [extracted_pages.pdf] and its type [application/pdf]. *)
Theorem download_only_after_extraction
    (i : widgets) (w w' : world) (shown : list element)
    (label : string) (data : list byte) (file_name mime : string) :
  app i w = (Ok shown, w') ->
  In (st_download_button label data file_name mime) shown ->
  exists pdf_bytes total_pages shown0 sel,
    uploaded i = Some pdf_bytes
    /\ peek_total_pages pdf_bytes = Ok total_pages
    /\ choose_pages i = Ok (shown0, sel)
    /\ button i = true
    /\ sel <> []
    /\ Forall (fun p => 1 <= p <= total_pages) sel
    /\ extract_pages_from_pdf pdf_bytes sel w = (Ok data, w')
    /\ file_name = "extracted_pages.pdf"%string
    /\ mime = "application/pdf"%string.
Proof.
  destruct (uploaded i) as [b|] eqn:Hu;
    [|unfold app; rewrite Hu; intros [= <- <-] Hin; simpl in Hin;
      repeat destruct Hin as [Hin|Hin]; discriminate || contradiction].
  destruct (peek_total_pages b) as [total|e] eqn:Hp;
    [|unfold app; rewrite Hu, Hp; intros [= <- <-] Hin; simpl in Hin;
      repeat destruct Hin as [Hin|Hin]; discriminate || contradiction].
  destruct (choose_pages_cases i) as (shown0 & sel & Hc & Hshown).
  rewrite (app_uploaded i b total shown0 sel w Hu Hp Hc).
  assert (Hno : ~ In (st_download_button label data file_name mime) shown0).
  { destruct Hshown as [-> | (msg & -> & _)]; simpl; [tauto|].
    intros [H|[]]; discriminate. }
  destruct (pages_block_cases b total sel (button i) w)
    as [(_ & ->) | [(_ & _ & ->) | [(_ & _ & _ & ->)
        | [(_ & _ & _ & e & _ & ->) | (Hne & Hbad & Hb & out & w2 & Hx & ->)]]]];
    intros [= <- <-] Hin; simpl in Hin;
    destruct Hin as [Hin|[Hin|[Hin|Hin]]]; try discriminate;
    apply in_app_or in Hin; destruct Hin as [Hin|Hin]; try contradiction;
    simpl in Hin;
    try (repeat destruct Hin as [Hin|Hin]; discriminate || contradiction).
  assert (Hd : out = data /\ file_name = "extracted_pages.pdf"%string
               /\ mime = "application/pdf"%string).
  { repeat destruct Hin as [Hin|Hin]; try discriminate; try contradiction.
    injection Hin as _ -> -> ->. auto. }
  destruct Hd as (-> & -> & ->).
  exists b, total, shown0, sel. repeat split; auto.
  apply check_pages_ok. now apply bad_pages_empty_check.
Qed.

End AppProperties.

Section AppOutcome.

Context {L : PdfLibrary}.

(** X13: a run that offers no download leaves the heap as it found it: no
    document is built for a missing or unreadable file, an invalid or empty
    selection, a page out of range, an idle button or a failed build. *)
Theorem no_download_no_document (i : widgets) (w w' : world) (shown : list element) :
  app i w = (Ok shown, w') ->
  (forall label data file_name mime,
      ~ In (st_download_button label data file_name mime) shown) ->
  w' = w.
Proof.
  destruct (uploaded i) as [b|] eqn:Hu;
    [|unfold app; rewrite Hu; now intros [= _ <-]].
  destruct (peek_total_pages b) as [total|e] eqn:Hp;
    [|unfold app; rewrite Hu, Hp; now intros [= _ <-]].
  destruct (choose_pages_cases i) as (shown0 & sel & Hc & _).
  rewrite (app_uploaded i b total shown0 sel w Hu Hp Hc).
  destruct (pages_block_cases b total sel (button i) w)
    as [(_ & ->) | [(_ & _ & ->) | [(_ & _ & _ & ->)
        | [(_ & _ & _ & e & _ & ->) | (_ & _ & _ & out & w2 & _ & ->)]]]];
    intros [= <- <-] Hno; try reflexivity.
  exfalso. eapply Hno. simpl. do 3 right. apply in_or_app. right.
  simpl. right. right. left. reflexivity.
Qed.

(** X14: for an uploaded file that is not encrypted and whose pages can be
    read, a selection that is not empty and passes the page's own check is
    always built when the button is pressed: the page shows the page count,
    the selection, the success message with the number of selected pages and
    the download of the serialised selected pages, and never [Failed to build
    PDF]. *)
Theorem unencrypted_selection_is_built
    (i : widgets) (pdf_bytes : list byte) (rd : reader) (pages : list page)
    (shown0 : list element) (sel : list Z) (w : world) :
  uploaded i = Some pdf_bytes ->
  PdfReader pdf_bytes = Ok rd ->
  is_encrypted rd = false ->
  reader_pages rd = Ok pages ->
  choose_pages i = Ok (shown0, sel) ->
  sel <> [] ->
  bad_pages (len pages) sel = [] ->
  button i = true ->
  fst (app i w)
  = Ok (page_head
          ++ [st_info ("Total pages detected: **" +:+ Py.str (len pages) +:+ "**");
              st_write "Selected pages (in order):" sel;
              st_success ("Built PDF with " +:+ Py.str (len sel) +:+ " page(s).");
              st_download_button "⬇️ Download result"
                (serialize (WriterState (select_pages pages sel) output_info) (ambient w))
                "extracted_pages.pdf" "application/pdf"]).
Proof.
  intros Hu Hrd Henc Hp Hc Hne Hbad Hb.
  assert (Hpeek : peek_total_pages pdf_bytes = Ok (len pages)).
  { unfold peek_total_pages. rewrite Hrd. simpl. now rewrite Hp. }
  rewrite (app_uploaded i pdf_bytes (len pages) shown0 sel w Hu Hpeek Hc).
  assert (Hshown : shown0 = []).
  { destruct (choose_pages_cases i) as (s0 & sel0 & Hc0 & Hs).
    rewrite Hc in Hc0. injection Hc0 as <- <-.
    destruct Hs as [-> | (msg & _ & ->)]; [reflexivity|congruence]. }
  assert (Hx : extract_pages_from_pdf pdf_bytes sel w
               = (Ok (serialize (WriterState (select_pages pages sel) output_info) (ambient w)),
                  snd (extract_pages_from_pdf pdf_bytes sel w))).
  { rewrite extract_eq. unfold output_document. rewrite Hrd. simpl. rewrite Henc. simpl.
    rewrite Hp. simpl. unfold len in Hbad.
    now rewrite (bad_pages_empty_check _ _ Hbad). }
  destruct (pages_block_cases pdf_bytes (len pages) sel (button i) w)
    as [(E & _) | [(_ & E & _) | [(_ & _ & E & _)
        | [(_ & _ & _ & e & E & _) | (_ & _ & _ & out & w2 & E & ->)]]]];
    try congruence.
  rewrite Hx in E. injection E as <- _. subst shown0. reflexivity.
Qed.

End AppOutcome.

Lemma download_only_after_extraction_witness :
  exists pdf_bytes total_pages shown0 sel,
    Some ["P"; "A"; "B"; "C"]%byte = Some pdf_bytes
    /\ peek_total_pages (L := toy) pdf_bytes = Ok total_pages
    /\ choose_pages (Widgets (Some ["P"; "A"; "B"; "C"]%byte) BySpec "3,1" 1 1 true)
       = Ok (shown0, sel)
    /\ true = true
    /\ sel <> []
    /\ Forall (fun p => 1 <= p <= total_pages) sel
    /\ extract_pages_from_pdf (L := toy) pdf_bytes sel (empty_world toy)
       = (Ok ["C"; "A"]%byte,
          snd (app (L := toy)
                 (Widgets (Some ["P"; "A"; "B"; "C"]%byte) BySpec "3,1" 1 1 true)
                 (empty_world toy)))
    /\ "extracted_pages.pdf"%string = "extracted_pages.pdf"%string
    /\ "application/pdf"%string = "application/pdf"%string.
Proof.
  refine (download_only_after_extraction (L := toy)
            (Widgets (Some ["P"; "A"; "B"; "C"]%byte) BySpec "3,1" 1 1 true)
            (empty_world toy) _ _ "⬇️ Download result" ["C"; "A"]%byte
            "extracted_pages.pdf" "application/pdf" eq_refl _).
  simpl. do 5 right. left. reflexivity.
Defined.

Lemma no_download_no_document_witness :
  snd (app (L := toy) (Widgets (Some ["P"; "A"; "B"; "C"]%byte) ByRange "" 2 9 true)
         (empty_world toy))
  = empty_world toy.
Proof.
  refine (no_download_no_document (L := toy)
            (Widgets (Some ["P"; "A"; "B"; "C"]%byte) ByRange "" 2 9 true)
            (empty_world toy) _ _ eq_refl _).
  intros label data file_name mime Hin. simpl in Hin.
  repeat destruct Hin as [Hin|Hin]; discriminate || contradiction.
Defined.

Lemma unencrypted_selection_is_built_witness :
  fst (app (L := toy) (Widgets (Some ["P"; "A"; "B"; "C"]%byte) ByRange "" 3 2 true)
         (empty_world toy))
  = Ok (page_head
          ++ [st_info "Total pages detected: **3**";
              st_write "Selected pages (in order):" [3; 2];
              st_success "Built PDF with 2 page(s).";
              st_download_button "⬇️ Download result" ["C"; "B"]%byte
                "extracted_pages.pdf" "application/pdf"]).
Proof.
  exact (unencrypted_selection_is_built (L := toy)
           (Widgets (Some ["P"; "A"; "B"; "C"]%byte) ByRange "" 3 2 true)
           ["P"; "A"; "B"; "C"]%byte (ToyReader TagP true ["A"; "B"; "C"]%byte)
           ["A"; "B"; "C"]%byte [] [3; 2] (empty_world toy)
           eq_refl eq_refl eq_refl eq_refl eq_refl ltac:(discriminate) eq_refl eq_refl).
Defined.

Section RangeMode.

Context {L : PdfLibrary}.

Lemma inclusive_seq_not_nil (s e : Z) : inclusive_seq s e <> [].
Proof.
  intros H. pose proof (inclusive_seq_length s e) as Hl. rewrite H in Hl. simpl in Hl. lia.
Qed.

(** X17: in the range mode the selection is never empty and never
    malformed: whatever the two numbers are, the page shows neither [Pick some
    pages first.] nor [Invalid spec], and once the page count is read it
    shows the selected pages, from [start] to [end]. *)
Theorem range_mode_always_selects
    (i : widgets) (w w' : world) (shown : list element) :
  mode i = ByRange ->
  app i w = (Ok shown, w') ->
  ~ In (st_warning "Pick some pages first.") shown
  /\ (forall msg, ~ In (st_error ("Invalid spec: " +:+ msg)) shown)
  /\ (forall pdf_bytes total_pages,
         uploaded i = Some pdf_bytes ->
         peek_total_pages pdf_bytes = Ok total_pages ->
         In (st_write "Selected pages (in order):"
               (inclusive_seq (start_input i) (end_input i))) shown).
Proof.
  intros Hm.
  destruct (uploaded i) as [b|] eqn:Hu.
  2:{ unfold app. rewrite Hu. intros [= <- <-]. split; [|split].
      - simpl. intros [H|[H|[H|[]]]]; discriminate.
      - intros msg. simpl. intros [H|[H|[H|[]]]]; discriminate.
      - intros ? ? [=]. }
  destruct (peek_total_pages b) as [total|e] eqn:Hp.
  2:{ unfold app. rewrite Hu, Hp. intros [= <- <-]. split; [|split].
      - simpl. intros [H|[H|[H|[]]]]; discriminate.
      - intros msg. simpl. intros [H|[H|[H|[]]]]; discriminate.
      - intros pb t [= <-] Hp'. congruence. }
  assert (Hc : choose_pages i
               = Ok ([], inclusive_seq (start_input i) (end_input i))).
  { unfold choose_pages. rewrite Hm, range_selection_inclusive. reflexivity. }
  rewrite (app_uploaded i b total [] _ w Hu Hp Hc).
  pose proof (inclusive_seq_not_nil (start_input i) (end_input i)) as Hne.
  destruct (pages_block_cases b total (inclusive_seq (start_input i) (end_input i))
              (button i) w)
    as [(E & _) | [(_ & _ & ->) | [(_ & _ & _ & ->)
        | [(_ & _ & _ & e & _ & ->) | (_ & _ & _ & out & w2 & _ & ->)]]]];
    [congruence| | | |];
    intros [= <- <-];
    (split; [simpl; intuition discriminate|split;
       [intros msg; simpl; intuition discriminate
       |intros ? ? _ _; simpl; do 3 right; left; reflexivity]]).
Qed.

End RangeMode.

Lemma range_mode_always_selects_witness :
  In (st_write "Selected pages (in order):" (inclusive_seq 5 2))
    (page_head
       ++ [st_info "Total pages detected: **3**";
           st_write "Selected pages (in order):" [5; 4; 3; 2];
           st_error "Out-of-range pages: [5, 4] (valid range is 1..3)"]).
Proof.
  exact (proj2 (proj2 (range_mode_always_selects (L := toy)
                         (Widgets (Some ["P"; "A"; "B"; "C"]%byte) ByRange "" 5 2 true)
                         (empty_world toy) (empty_world toy) _ eq_refl eq_refl))
           ["P"; "A"; "B"; "C"]%byte 3 eq_refl eq_refl).
Defined.
